(** * make-data-file: a shallow embedding of [make-data-file.py]

    The script draws [--count] Gaussian samples and prints them, one per
    line, either bare or inside comma-separated rows whose other columns
    are filled by generators picked at start-up.

    What the script takes from the Python platform is modelled as follows.
    - [float] is IEEE binary64: [spec_float] with [prec = 53], [emax = 1024].
    - The [random] module is a pair of tapes: one of raw uniform draws, read
      by [_randbelow], and one of standard normal deviates, read by [gauss].
      Quantifying over the tapes quantifies over every run.
    - [argparse] is modelled after tokenisation and [type=] conversion: an
      option is absent ([None]) or carries its converted value.
    - [str] of a finite non-zero float is the platform's digit generation,
      a parameter [repr_finite] of the development. *)

From Stdlib Require Import ZArith List String Ascii Bool Lia.
From Stdlib Require Import Floats.SpecFloat DecimalString DecimalPos DecimalZ.
Import ListNotations.
Local Open Scope string_scope.
Local Open Scope Z_scope.

(** ** Python values *)

Definition float := spec_float.

Definition prec : Z := 53.
Definition emax : Z := 1024.

Definition float_add (x y : float) : float := SFadd prec emax x y.
Definition float_mul (x y : float) : float := SFmul prec emax x y.

Definition pos_zero : float := S754_zero false.

Definition is_finite (x : float) : bool :=
  match x with
  | S754_zero _ | S754_finite _ _ _ => true
  | S754_infinity _ | S754_nan => false
  end.

Inductive value : Type :=
| VInt (z : Z)
| VStr (s : string)
| VFloat (f : float).

(** [str(int)]: decimal digits, with a leading minus sign when negative. *)
Definition str_int (z : Z) : string := NilZero.string_of_int (Z.to_int z).

(** [chr(c)]: the one-character string of code point [c]. *)
Definition chr (c : Z) : string := String (ascii_of_N (Z.to_N c)) "".

(** [ord('a')], [ord('z')]. *)
Definition ord_a : Z := 97.
Definition ord_z : Z := 122.

Definition comma : ascii := ","%char.
Definition newline : ascii := ascii_of_nat 10.

(** [sep.join(parts)]. *)
Definition join (sep : string) (parts : list string) : string :=
  String.concat sep parts.

(** [range(n)]: empty when [n <= 0]. *)
Definition range (n : Z) : list Z := map Z.of_nat (seq 0 (Z.to_nat n)).

(** [s.split(sep)] for a one-character separator. *)
Fixpoint split (sep : ascii) (s : string) : list string :=
  match s with
  | EmptyString => [EmptyString]
  | String c s' =>
      if Ascii.eqb c sep then EmptyString :: split sep s'
      else match split sep s' with
           | h :: t => String c h :: t
           | [] => [String c EmptyString]
           end
  end.

(** The lines of a text, as [str.splitlines] gives them for ["\n"]
    terminators: a final terminator opens no further line. *)
Definition splitlines (s : string) : list string :=
  let parts := split newline s in
  if String.eqb (last parts "") "" then removelast parts else parts.

(** ** What [float(s)] accepts

    The decimal and special forms of Python's float grammar: an optional
    sign, then [inf], [infinity], [nan], or digits with an optional point
    and an optional exponent.  Every string accepted here is accepted by
    [float()]. *)

Definition is_digit (c : ascii) : bool :=
  let n := N_of_ascii c in ((48 <=? n) && (n <=? 57))%N.

Definition is_sign (c : ascii) : bool :=
  Ascii.eqb c "+"%char || Ascii.eqb c "-"%char.

Definition is_exp_mark (c : ascii) : bool :=
  Ascii.eqb c "e"%char || Ascii.eqb c "E"%char.

Definition is_point (c : ascii) : bool := Ascii.eqb c "."%char.

Inductive fstate : Type :=
| FStart | FSign | FInt | FPoint | FFrac | FExp | FExpSign | FExpDigits.

Definition fstep (st : fstate) (c : ascii) : option fstate :=
  match st with
  | FStart =>
      if is_sign c then Some FSign
      else if is_digit c then Some FInt
      else if is_point c then Some FPoint else None
  | FSign =>
      if is_digit c then Some FInt
      else if is_point c then Some FPoint else None
  | FInt =>
      if is_digit c then Some FInt
      else if is_point c then Some FFrac
      else if is_exp_mark c then Some FExp else None
  | FPoint => if is_digit c then Some FFrac else None
  | FFrac =>
      if is_digit c then Some FFrac
      else if is_exp_mark c then Some FExp else None
  | FExp =>
      if is_sign c then Some FExpSign
      else if is_digit c then Some FExpDigits else None
  | FExpSign => if is_digit c then Some FExpDigits else None
  | FExpDigits => if is_digit c then Some FExpDigits else None
  end.

Definition faccepting (st : fstate) : bool :=
  match st with
  | FInt | FFrac | FExpDigits => true
  | _ => false
  end.

Fixpoint frun (st : fstate) (s : string) : bool :=
  match s with
  | EmptyString => faccepting st
  | String c s' =>
      match fstep st c with
      | Some st' => frun st' s'
      | None => false
      end
  end.

Definition special_floats : list string :=
  ["inf"; "+inf"; "-inf"; "infinity"; "+infinity"; "-infinity";
   "nan"; "+nan"; "-nan"].

Definition float_literal (s : string) : bool :=
  existsb (String.eqb s) special_floats || frun FStart s.

(** ** The process state

    [uniform] and [normal] are the two tapes of the [random] module with
    their read positions; [seq_int_N] is the function attribute
    [_seq_int.N]; [stdout] is the text written to standard output. *)

Record World : Type := mkWorld {
  uniform : nat -> N;
  uniform_pos : nat;
  normal : nat -> float;
  normal_pos : nat;
  seq_int_N : Z;
  stdout : string
}.

(** The state in which [main] is entered: nothing printed, nothing drawn,
    and [_seq_int.N = -1] from the module body (line 12). *)
Definition process_start (u : nat -> N) (z : nat -> float) : World :=
  mkWorld u 0 z 0 (-1) "".

(** ** A state monad for the script's effects *)

Definition M (A : Type) : Type := World -> A * World.

Definition ret {A : Type} (a : A) : M A := fun w => (a, w).

Definition bind {A B : Type} (c : M A) (k : A -> M B) : M B :=
  fun w => let (a, w') := c w in k a w'.

Notation "x <- c ;; k" := (bind c (fun x => k))
  (at level 61, c at next level, right associativity).
Notation "c ;;; k" := (bind c (fun _ => k))
  (at level 61, right associativity).

(** A list comprehension [[f(x) for x in xs]] with an effectful [f]:
    elements are evaluated left to right. *)
Fixpoint comprehension {A B : Type} (f : A -> M B) (xs : list A) : M (list B) :=
  match xs with
  | [] => ret []
  | x :: xs' =>
      y <- f x ;;
      ys <- comprehension f xs' ;;
      ret (y :: ys)
  end.

(** A statement loop [for x in xs: body(x)]. *)
Fixpoint for_each {A : Type} (xs : list A) (body : A -> M unit) : M unit :=
  match xs with
  | [] => ret tt
  | x :: xs' => body x ;;; for_each xs' body
  end.

(** ** The platform: [random] and [print] *)

(** One uniform draw below [n]: the next entry of the tape, reduced. *)
Definition _randbelow (n : Z) : M Z :=
  fun w =>
    (Z.of_N (uniform w (uniform_pos w)) mod n,
     mkWorld (uniform w) (S (uniform_pos w)) (normal w) (normal_pos w)
             (seq_int_N w) (stdout w)).

(** [random.randint(a, b)], both ends included. *)
Definition randint (a b : Z) : M Z :=
  r <- _randbelow (b - a + 1) ;; ret (a + r).

(** [random.choice(seq)] for a non-empty [seq]; [d] stands for the
    [IndexError] of an empty one. *)
Definition choice {A : Type} (d : A) (seq : list A) : M A :=
  i <- _randbelow (Z.of_nat (List.length seq)) ;; ret (nth (Z.to_nat i) seq d).

(** [random.gauss(mu, sigma)] returns [mu + z * sigma] for the next
    standard normal deviate [z]. *)
Definition gauss (mu sigma : float) : M float :=
  fun w =>
    (float_add mu (float_mul (normal w (normal_pos w)) sigma),
     mkWorld (uniform w) (uniform_pos w) (normal w) (S (normal_pos w))
             (seq_int_N w) (stdout w)).

(** [print(s)] writes [s] and a line terminator. *)
Definition print (s : string) : M unit :=
  fun w =>
    (tt,
     mkWorld (uniform w) (uniform_pos w) (normal w) (normal_pos w)
             (seq_int_N w) (stdout w ++ s ++ String newline "")).

(** ** The filler generators (lines 6-21) *)

Definition _random_int : M Z := randint (-1000) 1000.

(** Lines 9-11: [_seq_int.N += 1], then the new value is returned. *)
Definition _seq_int : M Z :=
  fun w =>
    let n := seq_int_N w + 1 in
    (n,
     mkWorld (uniform w) (uniform_pos w) (normal w) (normal_pos w)
             n (stdout w)).

(** Line 15: [random.gauss(0.0, 100.0)]; [100.0] is [7036874417766400 * 2^-46].
    The function is defined but is not in [RANDOM_CTORS]. *)
Definition _random_double : M float :=
  gauss pos_zero (S754_finite false 7036874417766400 (-46)).

Definition _random_str : M string :=
  l <- randint 1 8 ;;
  cs <- comprehension (fun _ => c <- randint ord_a ord_z ;; ret (chr c)) (range l) ;;
  ret (join "" cs).

(** The generators as list elements: a name and the call it stands for. *)
Inductive ctor : Type := Random_int | Seq_int | Random_str.

Definition call (c : ctor) : M value :=
  match c with
  | Random_int => v <- _random_int ;; ret (VInt v)
  | Seq_int => v <- _seq_int ;; ret (VInt v)
  | Random_str => s <- _random_str ;; ret (VStr s)
  end.

Definition RANDOM_CTORS : list ctor :=
  [Random_int; Seq_int; Random_str; Random_str].

Definition ctor_eqb (a b : ctor) : bool :=
  match a, b with
  | Random_int, Random_int | Seq_int, Seq_int | Random_str, Random_str => true
  | _, _ => false
  end.

(** ** Command line (lines 24-31)

    [argv] is a command line that argparse tokenises and converts: each
    option is absent or carries its converted value.  Command lines that
    argparse refuses before it has a value to check (an unknown option,
    a value [int] or [float] rejects: exit status 2) and [-h] (usage on
    standard output, exit status 0) have no [argv] and are outside the
    statements below. *)

Record argv : Type := mkArgv {
  opt_count : option Z;
  opt_distr : option string;
  opt_mean : option float;
  opt_stdev : option float;
  opt_csv_col : option Z;
  opt_csv_col_max : option Z
}.

Record Namespace : Type := mkNamespace {
  count : Z;
  distr : string;
  mean : float;
  stdev : float;
  csv_col : option Z;
  csv_col_max : Z
}.

(** [1.0], the default of [--stdev]. *)
Definition float_one : float := S754_finite false 4503599627370496 (-52).

Definition distr_choices : list string := ["gauss"].

Definition or_default {A : Type} (d : A) (o : option A) : A :=
  match o with Some a => a | None => d end.

(** [parser.parse_args()]: a value outside [choices] makes argparse call
    [parser.error], which exits with status 2; absent options take their
    defaults. *)
Definition parse_args (a : argv) : Z + Namespace :=
  let checked :=
    match opt_distr a with
    | Some d => existsb (String.eqb d) distr_choices
    | None => true
    end in
  if checked then
    inr (mkNamespace (or_default 1000 (opt_count a))
                     (or_default "gauss" (opt_distr a))
                     (or_default pos_zero (opt_mean a))
                     (or_default float_one (opt_stdev a))
                     (opt_csv_col a)
                     (or_default 8 (opt_csv_col_max a)))
  else inl 2.

(** How the process ends. *)
Inductive outcome : Type :=
| Returned
| SystemExit (code : Z)
| Raised (exc : string) (msg : string).

Definition exit_status (o : outcome) : Z :=
  match o with
  | Returned => 0
  | SystemExit code => code
  | Raised _ _ => 1
  end.

(** ** A float formatter to instantiate [repr_finite] with

    The exact decimal expansion of [m * 2^e]: always finite, and a decimal
    literal that [float()] reads back to the same value. *)

Definition dec (n : N) : string := NilZero.string_of_uint (N.to_uint n).

Fixpoint zeros (n : nat) : string :=
  match n with
  | O => ""
  | S n' => String "0"%char (zeros n')
  end.

Definition pad_zeros (width : nat) (s : string) : string :=
  zeros (width - String.length s) ++ s.

Definition exact_repr (s : bool) (m : positive) (e : Z) : string :=
  (if s then "-" else "") ++
  match e with
  | Zneg p =>
      let k := Pos.to_nat p in
      let scaled := (Npos m * 5 ^ N.of_nat k)%N in
      let unit := (10 ^ N.of_nat k)%N in
      dec (scaled / unit) ++ "." ++ pad_zeros k (dec (scaled mod unit))
  | _ => dec (Npos m * 2 ^ Z.to_N e) ++ ".0"
  end.

(** ** Vocabulary of the statements *)

(** Every character of [s] satisfies [p]. *)
Fixpoint string_forall (p : ascii -> bool) (s : string) : bool :=
  match s with
  | EmptyString => true
  | String c s' => p c && string_forall p s'
  end.

Definition free_of (sep : ascii) (s : string) : bool :=
  string_forall (fun c => negb (Ascii.eqb c sep)) s.

(** A field that can sit in a row: it holds neither separator. *)
Definition clean (s : string) : bool :=
  free_of comma s && free_of newline s.

Definition is_lower (c : ascii) : bool :=
  let n := N_of_ascii c in ((97 <=? n) && (n <=? 122))%N.

Definition is_int_char (c : ascii) : bool :=
  is_digit c || Ascii.eqb c "-"%char.

Definition is_float_char (c : ascii) : bool :=
  is_digit c || is_sign c || is_point c || is_exp_mark c.

(** A text made of terminated lines. *)
Definition unlines (ls : list string) : string :=
  String.concat "" (map (fun l => l ++ String newline "") ls).

(** [int(s)] on what [str(int)] writes. *)
Definition int_of_str (s : string) : option Z :=
  option_map Z.of_int (NilZero.int_of_string s).

(** ** Sample inputs *)

(** Tapes: uniform draws 1, 8, 15, ... and deviates -0.5, 0.5, -0.5, ... *)
Definition u_demo (i : nat) : N := N.of_nat (7 * i + 1).

Definition z_demo (i : nat) : float :=
  S754_finite (Nat.even i) 4503599627370496 (-53).

(** ** The script, over the platform's float formatting *)

Section Program.

(** [repr] of a finite non-zero float with sign [s], mantissa [m] and
    exponent [e]: the platform's shortest-digits conversion. *)
Variable repr_finite : bool -> positive -> Z -> string.

(** What the development asks of it: it writes float literals. *)
Hypothesis repr_finite_literal :
  forall s m e, float_literal (repr_finite s m e) = true.

Definition str_float (x : float) : string :=
  match x with
  | S754_zero false => "0.0"
  | S754_zero true => "-0.0"
  | S754_infinity false => "inf"
  | S754_infinity true => "-inf"
  | S754_nan => "nan"
  | S754_finite s m e => repr_finite s m e
  end.

Definition str (v : value) : string :=
  match v with
  | VInt z => str_int z
  | VStr s => s
  | VFloat f => str_float f
  end.

(** Lines 33-35: [rng] with its default arguments bound at definition. *)
Definition rng (_mean _stdev : float) : M float := gauss _mean _stdev.

(** Lines 40-41: [print_one] when [--csv-col] is absent. *)
Definition print_one_plain (x : float) : M unit := print (str (VFloat x)).

(** Lines 43-44: one entry per index of [range(csv_col_max)], [None] at
    [csv_col] and a drawn generator elsewhere; [pick_ctor k i] is the
    element expression at index [i]. *)
Definition pick_ctor (k i : Z) : M (option ctor) :=
  if negb (i =? k)
  then c <- choice Random_int RANDOM_CTORS ;; ret (Some c)
  else ret None.

Definition build_other_ctors (k m : Z) : M (list (option ctor)) :=
  comprehension (pick_ctor k) (range m).

(** Line 47: one field of a row. *)
Definition field (x : float) (c : option ctor) : M string :=
  match c with
  | Some g => v <- call g ;; ret (str v)
  | None => ret (str (VFloat x))
  end.

(** Lines 46-49: [print_one] in CSV mode, closed over [other_ctors]. *)
Definition print_one_csv (other_ctors : list (option ctor)) (x : float) : M unit :=
  data <- comprehension (field x) other_ctors ;;
  print (join "," data).

(** Lines 39-49: the choice of [print_one]. *)
Definition make_print_one (args : Namespace) : M (float -> M unit) :=
  match csv_col args with
  | None => ret print_one_plain
  | Some k =>
      other_ctors <- build_other_ctors k (csv_col_max args) ;;
      ret (print_one_csv other_ctors)
  end.

(** Lines 51-52: sample, then emit. *)
Definition sample_then_emit (args : Namespace) (print_one : float -> M unit) : M unit :=
  x <- rng (mean args) (stdev args) ;; print_one x.

Definition main (a : argv) (w : World) : outcome * World :=
  match parse_args a with
  | inl code => (SystemExit code, w)
  | inr args =>
      if String.eqb (distr args) "gauss" then
        let body :=
          print_one <- make_print_one args ;;
          for_each (range (count args))
                   (fun _ => sample_then_emit args print_one) in
        (Returned, snd (body w))
      else
        (Raised "AssertionError" ("Invalid distr '" ++ distr args ++ "'"), w)
  end.

(** ** Vocabulary of the statements, continued *)

(** The [r]-th value the run samples: [mean + z_r * stdev]. *)
Definition sample (cfg : Namespace) (z : nat -> float) (r : nat) : float :=
  float_add (mean cfg) (float_mul (z r) (stdev cfg)).

Definition is_seq (oc : option ctor) : bool :=
  match oc with
  | Some Seq_int => true
  | _ => false
  end.

(** How far one field moves [_seq_int.N]. *)
Definition bump (oc : option ctor) : Z := if is_seq oc then 1 else 0.

(** Counter columns of a plan, and those left of column [i]. *)
Definition seq_count (plan : list (option ctor)) : nat :=
  List.length (filter is_seq plan).

Definition seq_before (i : nat) (plan : list (option ctor)) : nat :=
  seq_count (firstn i plan).

(** [s] is something generator [c] can write when [_seq_int.N = n]. *)
Definition produced_by (c : ctor) (n : Z) (s : string) : Prop :=
  match c with
  | Random_int => exists v, -1000 <= v <= 1000 /\ s = str_int v
  | Seq_int => s = str_int (n + 1)
  | Random_str =>
      string_forall is_lower s = true /\ (1 <= String.length s <= 8)%nat
  end.

Definition field_ok (x : float) (n : Z) (oc : option ctor) (s : string) : Prop :=
  match oc with
  | None => s = str_float x
  | Some c => produced_by c n s
  end.

(** A row written under [plan] for the sample [x], entered with
    [_seq_int.N = n]. *)
Fixpoint row_ok (x : float) (n : Z) (plan : list (option ctor))
         (fs : list string) : Prop :=
  match plan, fs with
  | [], [] => True
  | oc :: plan', f :: fs' => field_ok x n oc f /\ row_ok x (n + bump oc) plan' fs'
  | _, _ => False
  end.

(** Worlds that differ at most in the uniform read position and the
    counter: nothing printed, no normal deviate consumed. *)
Definition quiet (w w' : World) : Prop :=
  uniform w' = uniform w /\ normal w' = normal w /\
  normal_pos w' = normal_pos w /\ stdout w' = stdout w.

(** The generator a uniform draw [d] selects from the pool. *)
Definition selected (d : N) : ctor :=
  nth (Z.to_nat (Z.of_N d mod Z.of_nat (List.length RANDOM_CTORS)))
      RANDOM_CTORS Random_int.

(** Non-target indices below [i]: the draws [build_other_ctors] makes
    before it reaches column [i]. *)
Definition nontarget_between (k : Z) (s len : nat) : nat :=
  List.length (filter (fun j => negb (j =? k)) (map Z.of_nat (seq s len))).

Definition draws_before (k : Z) (i : nat) : nat := nontarget_between k 0 i.

(** The plan entry of column [i] when its draw, if any, is [d]. *)
Definition plan_entry (k : Z) (i : nat) (d : N) : option ctor :=
  if Z.of_nat i =? k then None else Some (selected d).

(** Selection weight of a generator: the pool positions that hold it. *)
Definition weight (c : ctor) : nat :=
  List.length (filter (ctor_eqb c) RANDOM_CTORS).

(** One pass of the loop of lines 51-52, as a state transformer. *)
Definition step (cfg : Namespace) (print_one : float -> M unit) (w : World) : World :=
  snd (sample_then_emit cfg print_one w).

(** Worlds that differ at most in the uniform read position. *)
Definition calm (w w' : World) : Prop :=
  quiet w w' /\ seq_int_N w' = seq_int_N w.

(** The columns of a row: the plan in CSV mode, the sample alone
    otherwise; and the world in which the loop is entered. *)
Definition layout (cfg : Namespace) (w : World) : list (option ctor) :=
  match csv_col cfg with
  | None => [None]
  | Some k => fst (build_other_ctors k (csv_col_max cfg) w)
  end.

Definition loop_entry (cfg : Namespace) (w : World) : World :=
  snd (make_print_one cfg w).

(** The world after [r] passes of the loop. *)
Definition after_rows (cfg : Namespace) (w : World) (r : nat) : World :=
  Nat.iter r (step cfg (fst (make_print_one cfg w))) (loop_entry cfg w).

(** What the counter calls returned, among the results [vs] of the
    calls [cs]. *)
Definition seq_values (cs : list ctor) (vs : list value) : list value :=
  map snd (filter (fun p => ctor_eqb (fst p) Seq_int) (combine cs vs)).

(** The value [_seq_int] writes in row [r], column [i], of a run that
    starts with [_seq_int.N = -1]. *)
Definition counter_value (plan : list (option ctor)) (r i : nat) : Z :=
  Z.of_nat r * Z.of_nat (seq_count plan) + Z.of_nat (seq_before i plan).

(** [--count 5 --distr gauss --mean 0 --stdev 0]. *)
Definition argv_zero_stdev : argv :=
  mkArgv (Some 5) (Some "gauss") (Some pos_zero) (Some pos_zero) None None.

(** How many of the calls [cs] are counter calls. *)
Definition seq_calls (cs : list ctor) : nat :=
  List.length (filter (fun c => ctor_eqb c Seq_int) cs).

(** [--count 3 --csv-col 1 --csv-col-max 3] and what it parses to. *)
Definition argv_rows : argv :=
  mkArgv (Some 3) None None None (Some 1) (Some 3).

Definition cfg_rows : Namespace :=
  mkNamespace 3 "gauss" pos_zero float_one (Some 1) 3.

(** [--count 3 --csv-col 7 --csv-col-max 3]: the target is no column. *)
Definition argv_off_row : argv :=
  mkArgv (Some 3) None None None (Some 7) (Some 3).

Definition cfg_off_row : Namespace :=
  mkNamespace 3 "gauss" pos_zero float_one (Some 7) 3.

(** [--count 1 --csv-col 0 --csv-col-max 0]: a row of no columns. *)
Definition argv_no_columns : argv :=
  mkArgv (Some 1) None None None (Some 0) (Some 0).

(** [--distr uniform] and [--count -4]. *)
Definition argv_uniform : argv :=
  mkArgv None (Some "uniform") None None None None.

Definition argv_negative : argv :=
  mkArgv (Some (-4)) None None None None None.

(** Worlds that agree on everything but the normal tape and its read
    position. *)
Definition same_out (w w' : World) : Prop :=
  uniform w = uniform w' /\ uniform_pos w = uniform_pos w' /\
  seq_int_N w = seq_int_N w' /\ stdout w = stdout w'.

(** Two computations that, from such worlds, return the same value and
    keep the worlds so related: neither lets the normal tape show. *)
Definition alike {A : Type} (c c' : M A) : Prop :=
  forall w w', same_out w w' ->
    fst (c w) = fst (c' w') /\ same_out (snd (c w)) (snd (c' w')).

Definition has_ctor (oc : option ctor) : Prop := oc <> None.

(** ** Vocabulary of the further properties *)

(** The letter a uniform draw [d] selects in [_random_str]. *)
Definition letter (d : N) : ascii :=
  ascii_of_N (Z.to_N (ord_a + Z.of_N d mod (ord_z - ord_a + 1))).

(** The length [_random_str] draws at tape position [p], and the string
    it then builds from the draws that follow. *)
Definition random_str_length (u : nat -> N) (p : nat) : nat :=
  Z.to_nat (1 + Z.of_N (u p) mod (8 - 1 + 1)).

Definition random_str_of (u : nat -> N) (p : nat) : string :=
  string_of_list_ascii
    (map (fun i => letter (u (p + 1 + i)%nat)) (seq 0 (random_str_length u p))).

(** A tape whose first draws make [_random_str] spell [s]. *)
Definition tape_for (s : string) (i : nat) : N :=
  match i with
  | O => N.of_nat (String.length s - 1)
  | S j =>
      match String.get j s with
      | Some c => N_of_ascii c - 97
      | None => 0
      end
  end.

(** A tape whose draws all make [_random_int] return [v]. *)
Definition tape_for_int (v : Z) (i : nat) : N := Z.to_N (v + 1000).

(** [--count 3], [--count 5], and [--count 3 --csv-col 0 --csv-col-max 1],
    with what they parse to. *)
Definition argv_plain : argv := mkArgv (Some 3) None None None None None.

Definition cfg_plain : Namespace :=
  mkNamespace 3 "gauss" pos_zero float_one None 8.

Definition argv_plain_more : argv := mkArgv (Some 5) None None None None None.

Definition cfg_plain_more : Namespace :=
  mkNamespace 5 "gauss" pos_zero float_one None 8.

Definition argv_single : argv :=
  mkArgv (Some 3) None None None (Some 0) (Some 1).

Definition cfg_single : Namespace :=
  mkNamespace 3 "gauss" pos_zero float_one (Some 0) 1.

Definition cfg_no_columns : Namespace :=
  mkNamespace 1 "gauss" pos_zero float_one (Some 0) 0.

(** A uniform tape whose every draw selects [_seq_int] from the pool,
    and [--count 3 --mean 0 --stdev 0 --csv-col 1 --csv-col-max 3]:
    two counter columns around the sample. *)
Definition u_counters (i : nat) : N := 1.

Definition argv_counters : argv :=
  mkArgv (Some 3) None (Some pos_zero) (Some pos_zero) (Some 1) (Some 3).

Definition cfg_counters : Namespace :=
  mkNamespace 3 "gauss" pos_zero pos_zero (Some 1) 3.

(** * Facts about strings *)

Lemma string_forall_app p a b :
  string_forall p (a ++ b) = string_forall p a && string_forall p b.
Proof.
  induction a as [|c a IH]; simpl; [reflexivity|].
  now rewrite IH, andb_assoc.
Qed.

Lemma string_forall_weaken (p q : ascii -> bool) s :
  (forall c, p c = true -> q c = true) ->
  string_forall p s = true -> string_forall q s = true.
Proof.
  intros Hpq. induction s as [|c s IH]; simpl; [reflexivity|].
  rewrite !andb_true_iff. intros [Hc Hs]. split; auto.
Qed.

Lemma free_of_app sep a b :
  free_of sep (a ++ b) = free_of sep a && free_of sep b.
Proof. apply string_forall_app. Qed.

Lemma clean_free_comma s : clean s = true -> free_of comma s = true.
Proof. unfold clean. rewrite andb_true_iff. tauto. Qed.

Lemma clean_free_newline s : clean s = true -> free_of newline s = true.
Proof. unfold clean. rewrite andb_true_iff. tauto. Qed.

Lemma string_forall_clean (p : ascii -> bool) s :
  (forall c, p c = true -> Ascii.eqb c comma = false /\ Ascii.eqb c newline = false) ->
  string_forall p s = true -> clean s = true.
Proof.
  intros Hp Hs. unfold clean, free_of. apply andb_true_iff. split.
  - apply (string_forall_weaken p); [|exact Hs].
    intros c Hc. destruct (Hp c Hc) as [-> _]. reflexivity.
  - apply (string_forall_weaken p); [|exact Hs].
    intros c Hc. destruct (Hp c Hc) as [_ ->]. reflexivity.
Qed.

Lemma split_nonempty sep s : split sep s <> [].
Proof.
  destruct s as [|c s]; simpl; [discriminate|].
  destruct (Ascii.eqb c sep); [discriminate|].
  destruct (split sep s); discriminate.
Qed.

Lemma split_free sep s : free_of sep s = true -> split sep s = [s].
Proof.
  induction s as [|c s IH]; simpl; [reflexivity|].
  unfold free_of in *. simpl. rewrite andb_true_iff. intros [Hc Hs].
  apply negb_true_iff in Hc. rewrite Hc, (IH Hs). reflexivity.
Qed.

Lemma split_app_sep sep a b :
  free_of sep a = true ->
  split sep (a ++ String sep b) = a :: split sep b.
Proof.
  induction a as [|c a IH]; simpl.
  - intros _. now rewrite Ascii.eqb_refl.
  - unfold free_of in *. simpl. rewrite andb_true_iff. intros [Hc Ha].
    apply negb_true_iff in Hc. rewrite Hc, (IH Ha). reflexivity.
Qed.

(** Splitting undoes joining when no part holds the separator. *)
Lemma split_join (parts : list string) :
  parts <> [] ->
  Forall (fun f => free_of comma f = true) parts ->
  split comma (join "," parts) = parts.
Proof.
  induction parts as [|f parts IH]; [congruence|].
  intros _ Hall. inversion Hall as [|? ? Hf Hrest]; subst.
  destruct parts as [|g parts].
  - simpl. now apply split_free.
  - change (join "," (f :: g :: parts))
      with (f ++ String comma (join "," (g :: parts))).
    rewrite split_app_sep by assumption.
    rewrite IH; [reflexivity|discriminate|assumption].
Qed.

Lemma unlines_cons l ls :
  unlines (l :: ls) = l ++ String newline (unlines ls).
Proof.
  unfold unlines. simpl. destruct ls as [|l' ls]; simpl.
  - induction l; simpl; congruence.
  - induction l; simpl; [reflexivity|congruence].
Qed.

Lemma unlines_app ls ls' :
  unlines (ls ++ ls')%list = unlines ls ++ unlines ls'.
Proof.
  induction ls as [|l ls IH]; [reflexivity|].
  rewrite <- app_comm_cons, !unlines_cons, IH.
  induction l; simpl; congruence.
Qed.

Lemma split_unlines ls :
  Forall (fun l => free_of newline l = true) ls ->
  split newline (unlines ls) = (ls ++ [""])%list.
Proof.
  induction 1 as [|l ls Hl _ IH]; [reflexivity|].
  rewrite unlines_cons, split_app_sep, IH by assumption. reflexivity.
Qed.

(** Reading the lines back from a text of terminated lines. *)
Lemma splitlines_unlines ls :
  Forall (fun l => free_of newline l = true) ls ->
  splitlines (unlines ls) = ls.
Proof.
  intros H. unfold splitlines. rewrite (split_unlines ls H).
  rewrite last_last, removelast_last. reflexivity.
Qed.

Lemma concat_empty_cons s ss :
  String.concat "" (s :: ss) = s ++ String.concat "" ss.
Proof.
  destruct ss as [|s' ss]; simpl; [|reflexivity].
  induction s; simpl; congruence.
Qed.

Lemma string_forall_concat p sep parts :
  string_forall p sep = true ->
  Forall (fun f => string_forall p f = true) parts ->
  string_forall p (String.concat sep parts) = true.
Proof.
  intros Hsep. induction 1 as [|f parts Hf Hrest IH]; [reflexivity|].
  destruct parts as [|g parts]; [exact Hf|].
  change (String.concat sep (f :: g :: parts))
    with (f ++ sep ++ String.concat sep (g :: parts)).
  now rewrite !string_forall_app, Hf, Hsep, IH.
Qed.

Lemma length_append a b :
  String.length (a ++ b) = (String.length a + String.length b)%nat.
Proof. induction a; simpl; congruence. Qed.

(** * Facts about the monad and the loops *)

Lemma bind_run {A B : Type} (c : M A) (k : A -> M B) w :
  bind c k w = k (fst (c w)) (snd (c w)).
Proof. unfold bind. destruct (c w). reflexivity. Qed.

Lemma quiet_refl w : quiet w w.
Proof. repeat split. Qed.

Lemma quiet_trans w1 w2 w3 : quiet w1 w2 -> quiet w2 w3 -> quiet w1 w3.
Proof.
  intros (A1 & B1 & C1 & D1) (A2 & B2 & C2 & D2).
  repeat split; congruence.
Qed.

Lemma calm_refl w : calm w w.
Proof. split; [apply quiet_refl|reflexivity]. Qed.

Lemma calm_trans w1 w2 w3 : calm w1 w2 -> calm w2 w3 -> calm w1 w3.
Proof.
  intros [Q1 S1] [Q2 S2].
  split; [apply (quiet_trans _ w2); assumption|congruence].
Qed.

Lemma range_length n : List.length (range n) = Z.to_nat n.
Proof. unfold range. now rewrite length_map, length_seq. Qed.

Lemma for_each_const {A : Type} (xs : list A) (b : M unit) w :
  snd (for_each xs (fun _ => b) w)
  = Nat.iter (List.length xs) (fun w' => snd (b w')) w.
Proof.
  revert w. induction xs as [|x xs IH]; intros w; [reflexivity|].
  cbn [for_each List.length]. rewrite bind_run, IH.
  now rewrite Nat.iter_succ_r.
Qed.

Lemma comprehension_calm {A B : Type} (f : A -> M B) (P : B -> Prop) xs :
  (forall x w, calm w (snd (f x w)) /\ P (fst (f x w))) ->
  forall w,
    calm w (snd (comprehension f xs w)) /\
    Forall P (fst (comprehension f xs w)) /\
    List.length (fst (comprehension f xs w)) = List.length xs.
Proof.
  intros Hf. induction xs as [|x xs IH]; intros w.
  - split; [apply calm_refl|split; [constructor|reflexivity]].
  - cbn [comprehension]. rewrite !bind_run. cbn [ret fst snd].
    destruct (Hf x w) as [Hc Hp].
    destruct (IH (snd (f x w))) as (Hc' & Hall & Hlen).
    split; [apply (calm_trans _ (snd (f x w))); assumption|].
    split; [constructor; assumption|].
    cbn [List.length]. now rewrite Hlen.
Qed.

(** * Facts about the platform *)

Lemma randbelow_range n w : 0 < n -> 0 <= fst (_randbelow n w) < n.
Proof. intros Hn. cbn. apply Z.mod_pos_bound. exact Hn. Qed.

Lemma randbelow_calm n w : calm w (snd (_randbelow n w)).
Proof. repeat split. Qed.

Lemma randint_range a b w : a <= b -> a <= fst (randint a b w) <= b.
Proof.
  intros Hab. unfold randint. rewrite bind_run. cbn [ret fst].
  pose proof (randbelow_range (b - a + 1) w ltac:(lia)). lia.
Qed.

Lemma randint_calm a b w : calm w (snd (randint a b w)).
Proof. repeat split. Qed.

Lemma gauss_run mu sigma w :
  fst (gauss mu sigma w) = float_add mu (float_mul (normal w (normal_pos w)) sigma) /\
  uniform (snd (gauss mu sigma w)) = uniform w /\
  uniform_pos (snd (gauss mu sigma w)) = uniform_pos w /\
  normal (snd (gauss mu sigma w)) = normal w /\
  normal_pos (snd (gauss mu sigma w)) = S (normal_pos w) /\
  seq_int_N (snd (gauss mu sigma w)) = seq_int_N w /\
  stdout (snd (gauss mu sigma w)) = stdout w.
Proof. repeat split. Qed.

Lemma print_run s w :
  uniform (snd (print s w)) = uniform w /\
  uniform_pos (snd (print s w)) = uniform_pos w /\
  normal (snd (print s w)) = normal w /\
  normal_pos (snd (print s w)) = normal_pos w /\
  seq_int_N (snd (print s w)) = seq_int_N w /\
  stdout (snd (print s w)) = stdout w ++ unlines [s].
Proof. repeat split. Qed.

(** * Facts about the generators *)

Lemma random_int_range w : -1000 <= fst (_random_int w) <= 1000.
Proof. apply randint_range. lia. Qed.

Lemma seq_int_run w :
  fst (_seq_int w) = seq_int_N w + 1 /\
  seq_int_N (snd (_seq_int w)) = seq_int_N w + 1 /\
  quiet w (snd (_seq_int w)) /\
  uniform_pos (snd (_seq_int w)) = uniform_pos w.
Proof. repeat split. Qed.

Lemma chr_lower c :
  ord_a <= c <= ord_z ->
  exists a, chr c = String a "" /\ is_lower a = true.
Proof.
  unfold ord_a, ord_z, chr. intros Hc. eexists. split; [reflexivity|].
  unfold is_lower. rewrite N_ascii_embedding by lia.
  apply andb_true_iff. split; apply N.leb_le; lia.
Qed.

Lemma join_chars cs :
  Forall (fun s => exists a, s = String a "" /\ is_lower a = true) cs ->
  string_forall is_lower (join "" cs) = true /\
  String.length (join "" cs) = List.length cs.
Proof.
  unfold join. induction 1 as [|s cs (a & -> & Ha) _ [IH1 IH2]].
  - split; reflexivity.
  - rewrite concat_empty_cons. cbn [append string_forall String.length List.length].
    rewrite Ha, IH1, IH2. split; reflexivity.
Qed.

Lemma random_str_spec w :
  calm w (snd (_random_str w)) /\
  string_forall is_lower (fst (_random_str w)) = true /\
  (1 <= String.length (fst (_random_str w)) <= 8)%nat.
Proof.
  unfold _random_str. rewrite !bind_run. cbn [ret fst snd].
  pose proof (randint_range 1 8 w ltac:(lia)) as Hl.
  pose proof (randint_calm 1 8 w) as Hw.
  set (l := fst (randint 1 8 w)) in *.
  set (w1 := snd (randint 1 8 w)) in *.
  destruct (comprehension_calm
              (fun _ : Z => c <- randint ord_a ord_z ;; ret (chr c))
              (fun s => exists a, s = String a "" /\ is_lower a = true)
              (range l)) with (w := w1) as (Hc & Hall & Hlen).
  { intros x w'. rewrite bind_run. cbn [ret fst snd].
    split; [apply randint_calm|].
    apply chr_lower. apply randint_range. unfold ord_a, ord_z. lia. }
  destruct (join_chars _ Hall) as [Hlow Hn].
  split; [apply (calm_trans _ w1); assumption|].
  split; [exact Hlow|].
  rewrite Hn, Hlen, range_length. lia.
Qed.

(** * Facts about what the fields are made of *)

Lemma int_char_clean c :
  is_int_char c = true ->
  Ascii.eqb c comma = false /\ Ascii.eqb c newline = false.
Proof.
  intros H. split; apply Ascii.eqb_neq; intros ->; discriminate H.
Qed.

Lemma lower_clean c :
  is_lower c = true ->
  Ascii.eqb c comma = false /\ Ascii.eqb c newline = false.
Proof.
  intros H. split; apply Ascii.eqb_neq; intros ->; discriminate H.
Qed.

Lemma float_char_clean c :
  is_float_char c = true ->
  Ascii.eqb c comma = false /\ Ascii.eqb c newline = false.
Proof.
  intros H. split; apply Ascii.eqb_neq; intros ->; discriminate H.
Qed.

Lemma uint_digits d : string_forall is_digit (NilEmpty.string_of_uint d) = true.
Proof. induction d; simpl; auto. Qed.

Lemma uint_digits_nz d : string_forall is_digit (NilZero.string_of_uint d) = true.
Proof. destruct d; try reflexivity; apply (uint_digits (_ d)). Qed.

Lemma str_int_chars z : string_forall is_int_char (str_int z) = true.
Proof.
  unfold str_int.
  assert (Hd : forall d, string_forall is_int_char (NilZero.string_of_uint d) = true).
  { intros d. apply (string_forall_weaken is_digit); [|apply uint_digits_nz].
    intros c Hc. unfold is_int_char. now rewrite Hc. }
  destruct (Z.to_int z) as [d|d]; simpl; [apply Hd|].
  change (string_forall is_int_char (NilZero.string_of_uint d) = true). apply Hd.
Qed.

Lemma str_int_clean z : clean (str_int z) = true.
Proof.
  apply (string_forall_clean is_int_char);
    [exact int_char_clean|apply str_int_chars].
Qed.

(** [int] reads back what [str] wrote. *)
Lemma int_of_str_int z : int_of_str (str_int z) = Some z.
Proof.
  unfold int_of_str, str_int. rewrite NilZero.isi.
  - simpl. now rewrite DecimalZ.of_to.
  - destruct z; simpl; try discriminate.
    intros [= H]. revert H. apply DecimalPos.Unsigned.to_uint_nonnil.
  - destruct z; simpl; try discriminate.
    intros [= H]. revert H. apply DecimalPos.Unsigned.to_uint_nonnil.
Qed.

Lemma str_int_inj a b : str_int a = str_int b -> a = b.
Proof.
  intros H. apply (f_equal int_of_str) in H.
  rewrite !int_of_str_int in H. congruence.
Qed.

Lemma fstep_char st c st' : fstep st c = Some st' -> is_float_char c = true.
Proof.
  unfold is_float_char.
  destruct st; simpl;
    destruct (is_sign c), (is_digit c), (is_point c), (is_exp_mark c);
    simpl; congruence.
Qed.

Lemma frun_chars s : forall st, frun st s = true -> string_forall is_float_char s = true.
Proof.
  induction s as [|c s IH]; intros st; simpl; [reflexivity|].
  destruct (fstep st c) as [st'|] eqn:E; [|discriminate].
  intros H. rewrite (fstep_char _ _ _ E). simpl. exact (IH _ H).
Qed.

Lemma float_literal_clean s : float_literal s = true -> clean s = true.
Proof.
  unfold float_literal. intros H. apply orb_true_iff in H. destruct H as [H|H].
  - simpl in H.
    repeat (apply orb_true_iff in H; destruct H as [H|H]);
      try discriminate; apply String.eqb_eq in H; subst; reflexivity.
  - apply (string_forall_clean is_float_char);
      [exact float_char_clean|exact (frun_chars _ _ H)].
Qed.

Lemma str_float_literal x : float_literal (str_float x) = true.
Proof.
  destruct x as [[|]|[|]| |s m e]; try reflexivity.
  apply repr_finite_literal.
Qed.

Lemma str_float_clean x : clean (str_float x) = true.
Proof. apply float_literal_clean, str_float_literal. Qed.

Lemma produced_by_clean c n s : produced_by c n s -> clean s = true.
Proof.
  destruct c; simpl.
  - intros (v & _ & ->). apply str_int_clean.
  - intros ->. apply str_int_clean.
  - intros [H _]. apply (string_forall_clean is_lower); [exact lower_clean|exact H].
Qed.

Lemma field_ok_clean x n oc s : field_ok x n oc s -> clean s = true.
Proof.
  destruct oc as [c|]; simpl.
  - apply produced_by_clean.
  - intros ->. apply str_float_clean.
Qed.

Lemma row_ok_length x plan : forall n fs,
  row_ok x n plan fs -> List.length fs = List.length plan.
Proof.
  induction plan as [|oc plan IH]; intros n [|f fs]; simpl; try tauto.
  intros [_ H]. f_equal. exact (IH _ _ H).
Qed.

Lemma row_ok_clean x plan : forall n fs,
  row_ok x n plan fs -> Forall (fun f => clean f = true) fs.
Proof.
  induction plan as [|oc plan IH]; intros n [|f fs]; simpl; try tauto.
  - constructor.
  - intros [Hf H]. constructor; [exact (field_ok_clean _ _ _ _ Hf)|exact (IH _ _ H)].
Qed.

Lemma seq_before_cons i oc plan :
  Z.of_nat (seq_before (S i) (oc :: plan)) = bump oc + Z.of_nat (seq_before i plan).
Proof.
  unfold seq_before, seq_count, bump. cbn [firstn filter].
  destruct (is_seq oc); cbn [List.length]; lia.
Qed.

Lemma seq_count_cons oc plan :
  Z.of_nat (seq_count (oc :: plan)) = bump oc + Z.of_nat (seq_count plan).
Proof.
  unfold seq_count, bump. cbn [filter].
  destruct (is_seq oc); cbn [List.length]; lia.
Qed.

(** The field of column [i] is written by that column's entry of the
    plan, with the counter advanced by the counter columns to its left. *)
Lemma row_ok_nth x plan : forall n fs i oc,
  row_ok x n plan fs ->
  nth_error plan i = Some oc ->
  exists f, nth_error fs i = Some f /\
            field_ok x (n + Z.of_nat (seq_before i plan)) oc f.
Proof.
  induction plan as [|oc0 plan IH]; intros n [|f fs] [|i] oc; simpl;
    try tauto; try discriminate.
  - intros [Hf _] [= <-]. exists f. split; [reflexivity|].
    unfold seq_before, seq_count. simpl. now rewrite Z.add_0_r.
  - intros [_ H] Hi. destruct (IH _ _ _ _ H Hi) as (g & Hg & Hok).
    exists g. split; [exact Hg|].
    rewrite seq_before_cons.
    now replace (n + (bump oc0 + Z.of_nat (seq_before i plan)))
      with (n + bump oc0 + Z.of_nat (seq_before i plan)) by lia.
Qed.

(** * Facts about one row *)

Lemma call_spec c w :
  quiet w (snd (call c w)) /\
  seq_int_N (snd (call c w)) = seq_int_N w + bump (Some c) /\
  produced_by c (seq_int_N w) (str (fst (call c w))).
Proof.
  destruct c; unfold call; rewrite bind_run; cbn [ret fst snd str produced_by].
  - destruct (randint_calm (-1000) 1000 w) as [Hq Hs].
    split; [exact Hq|]. split; [unfold bump; simpl; unfold _random_int; lia|].
    exists (fst (_random_int w)). split; [apply random_int_range|reflexivity].
  - destruct (seq_int_run w) as (Hv & Hn & Hq & _).
    split; [exact Hq|]. split; [exact Hn|]. now rewrite Hv.
  - destruct (random_str_spec w) as ([Hq Hs] & Hlow & Hlen).
    split; [exact Hq|]. split; [unfold bump; simpl; lia|]. split; assumption.
Qed.

Lemma field_spec x oc w :
  quiet w (snd (field x oc w)) /\
  seq_int_N (snd (field x oc w)) = seq_int_N w + bump oc /\
  field_ok x (seq_int_N w) oc (fst (field x oc w)).
Proof.
  destruct oc as [c|]; unfold field.
  - rewrite bind_run. cbn [ret fst snd field_ok]. apply call_spec.
  - cbn [ret fst snd field_ok]. split; [apply quiet_refl|].
    split; [unfold bump; simpl; lia|reflexivity].
Qed.

Lemma row_spec x plan : forall w,
  quiet w (snd (comprehension (field x) plan w)) /\
  seq_int_N (snd (comprehension (field x) plan w))
    = seq_int_N w + Z.of_nat (seq_count plan) /\
  row_ok x (seq_int_N w) plan (fst (comprehension (field x) plan w)).
Proof.
  induction plan as [|oc plan IH]; intros w.
  - cbn. split; [apply quiet_refl|]. split; [lia|exact I].
  - cbn [comprehension]. rewrite !bind_run. cbn [ret fst snd row_ok].
    destruct (field_spec x oc w) as (Hq & Hn & Hf).
    destruct (IH (snd (field x oc w))) as (Hq' & Hn' & Hrow).
    split; [apply (quiet_trans _ (snd (field x oc w))); assumption|].
    split; [rewrite Hn', Hn, seq_count_cons; lia|].
    split; [exact Hf|]. rewrite <- Hn. exact Hrow.
Qed.

(** One pass of the loop in CSV mode writes one row under the plan. *)
Lemma step_csv cfg plan w :
  exists fs,
    row_ok (sample cfg (normal w) (normal_pos w)) (seq_int_N w) plan fs /\
    stdout (step cfg (print_one_csv plan) w) = stdout w ++ unlines [join "," fs] /\
    uniform (step cfg (print_one_csv plan) w) = uniform w /\
    normal (step cfg (print_one_csv plan) w) = normal w /\
    normal_pos (step cfg (print_one_csv plan) w) = S (normal_pos w) /\
    seq_int_N (step cfg (print_one_csv plan) w)
      = seq_int_N w + Z.of_nat (seq_count plan).
Proof.
  unfold step, sample_then_emit, rng, print_one_csv. rewrite !bind_run.
  destruct (gauss_run (mean cfg) (stdev cfg) w) as (Hx & Hu & _ & Hz & Hp & Hn & Ho).
  set (x := fst (gauss (mean cfg) (stdev cfg) w)) in *.
  set (w1 := snd (gauss (mean cfg) (stdev cfg) w)) in *.
  destruct (row_spec x plan w1) as ((Qu & Qz & Qp & Qo) & Rn & Rok).
  set (fs := fst (comprehension (field x) plan w1)) in *.
  set (w2 := snd (comprehension (field x) plan w1)) in *.
  destruct (print_run (join "," fs) w2) as (Pu & _ & Pz & Pp & Pn & Po).
  exists fs. unfold sample. rewrite <- Hx.
  split; [rewrite <- Hn; exact Rok|].
  split; [rewrite Po; congruence|].
  split; [congruence|]. split; [congruence|]. split; [congruence|].
  rewrite Pn, Rn, Hn. reflexivity.
Qed.

(** Without [--csv-col], a pass writes the row of the one-column plan
    that holds just the sample. *)
Lemma print_one_plain_csv x w : print_one_plain x w = print_one_csv [None] x w.
Proof. reflexivity. Qed.

Lemma step_plain cfg w : step cfg print_one_plain w = step cfg (print_one_csv [None]) w.
Proof.
  unfold step, sample_then_emit. rewrite !bind_run.
  now rewrite print_one_plain_csv.
Qed.

(** * Facts about the whole loop *)

Lemma append_assoc (a b c : string) : (a ++ b) ++ c = a ++ b ++ c.
Proof. induction a; simpl; congruence. Qed.

Lemma append_nil_r (a : string) : a ++ "" = a.
Proof. induction a; simpl; congruence. Qed.

(** [r] passes in CSV mode write [r] rows, each under the plan, for the
    [r] next normal deviates, the counter moving by the number of counter
    columns at each row. *)
Lemma run_csv cfg plan r : forall w,
  exists rows,
    List.length rows = r /\
    stdout (Nat.iter r (step cfg (print_one_csv plan)) w)
      = stdout w ++ unlines (map (join ",") rows) /\
    uniform (Nat.iter r (step cfg (print_one_csv plan)) w) = uniform w /\
    normal (Nat.iter r (step cfg (print_one_csv plan)) w) = normal w /\
    normal_pos (Nat.iter r (step cfg (print_one_csv plan)) w) = (normal_pos w + r)%nat /\
    seq_int_N (Nat.iter r (step cfg (print_one_csv plan)) w)
      = seq_int_N w + Z.of_nat r * Z.of_nat (seq_count plan) /\
    forall i row,
      nth_error rows i = Some row ->
      row_ok (sample cfg (normal w) (normal_pos w + i))
             (seq_int_N w + Z.of_nat i * Z.of_nat (seq_count plan)) plan row.
Proof.
  intros w. induction r as [|r IH].
  - exists []. cbn [Nat.iter List.length map].
    split; [reflexivity|]. split; [now rewrite append_nil_r|].
    split; [reflexivity|]. split; [reflexivity|].
    split; [now rewrite Nat.add_0_r|]. split; [simpl; lia|].
    intros [|i] row; discriminate.
  - destruct IH as (rows & Hlen & Hout & Hu & Hz & Hp & Hn & Hrows).
    rewrite !Nat.iter_succ.
    set (wr := Nat.iter r (step cfg (print_one_csv plan)) w) in *.
    destruct (step_csv cfg plan wr) as (fs & Hfs & Sout & Su & Sz & Sp & Sn).
    exists (rows ++ [fs])%list.
    split; [rewrite length_app, Hlen; simpl; lia|].
    split; [rewrite Sout, Hout, map_app, unlines_app; apply append_assoc|].
    split; [congruence|]. split; [congruence|].
    split; [rewrite Sp, Hp; lia|]. split; [rewrite Sn, Hn; lia|].
    intros i row Hi.
    destruct (Nat.lt_ge_cases i (List.length rows)) as [Hlt|Hge].
    + rewrite nth_error_app1 in Hi by exact Hlt. exact (Hrows _ _ Hi).
    + rewrite nth_error_app2 in Hi by exact Hge.
      destruct (i - List.length rows)%nat as [|d] eqn:Hd.
      * injection Hi as <-. assert (i = r) by lia. subst i.
        rewrite <- Hp, <- Hn, <- Hz. exact Hfs.
      * destruct d; discriminate.
Qed.

(** * Facts about configuration and the plan *)

Lemma parse_args_distr a cfg : parse_args a = inr cfg -> distr cfg = "gauss".
Proof.
  unfold parse_args. destruct (opt_distr a) as [d|] eqn:E.
  - destruct (existsb (String.eqb d) distr_choices) eqn:Hd; [|discriminate].
    intros [= <-]. simpl. simpl in Hd. rewrite orb_false_r in Hd.
    now apply String.eqb_eq in Hd.
  - intros [= <-]. reflexivity.
Qed.

Lemma main_run a cfg w :
  parse_args a = inr cfg ->
  main a w =
  (Returned,
   Nat.iter (Z.to_nat (count cfg))
            (step cfg (fst (make_print_one cfg w)))
            (snd (make_print_one cfg w))).
Proof.
  intros Hp. unfold main. rewrite Hp, (parse_args_distr _ _ Hp).
  rewrite String.eqb_refl. f_equal. rewrite bind_run, for_each_const, range_length.
  reflexivity.
Qed.

Lemma choice_pool w :
  fst (choice Random_int RANDOM_CTORS w) = selected (uniform w (uniform_pos w)) /\
  uniform_pos (snd (choice Random_int RANDOM_CTORS w)) = S (uniform_pos w) /\
  calm w (snd (choice Random_int RANDOM_CTORS w)).
Proof. repeat split. Qed.

Lemma pick_ctor_spec k i w :
  fst (pick_ctor k (Z.of_nat i) w) = plan_entry k i (uniform w (uniform_pos w)) /\
  uniform_pos (snd (pick_ctor k (Z.of_nat i) w))
    = (uniform_pos w + nontarget_between k i 1)%nat /\
  calm w (snd (pick_ctor k (Z.of_nat i) w)).
Proof.
  unfold pick_ctor, plan_entry, nontarget_between. cbn [seq map filter].
  destruct (Z.of_nat i =? k); cbn [negb List.length].
  - cbn [ret fst snd]. split; [reflexivity|]. split; [lia|apply calm_refl].
  - rewrite bind_run. cbn [ret fst snd].
    destruct (choice_pool w) as (Hv & Hpos & Hc).
    split; [now rewrite Hv|]. split; [rewrite Hpos; lia|exact Hc].
Qed.

Lemma nontarget_between_succ k s len :
  nontarget_between k s (S len)
  = (nontarget_between k s 1 + nontarget_between k (S s) len)%nat.
Proof.
  unfold nontarget_between. cbn [seq map filter].
  destruct (negb (Z.of_nat s =? k)); reflexivity.
Qed.

(** The plan, entry by entry: column [s + j] reads the tape where the
    non-target columns before it left the read position. *)
Lemma build_from k len : forall s w,
  calm w (snd (comprehension (pick_ctor k) (map Z.of_nat (seq s len)) w)) /\
  List.length (fst (comprehension (pick_ctor k) (map Z.of_nat (seq s len)) w)) = len /\
  forall j, (j < len)%nat ->
    nth_error (fst (comprehension (pick_ctor k) (map Z.of_nat (seq s len)) w)) j
    = Some (plan_entry k (s + j)
              (uniform w (uniform_pos w + nontarget_between k s j))).
Proof.
  induction len as [|len IH]; intros s w.
  - cbn. split; [apply calm_refl|]. split; [reflexivity|]. intros j Hj. lia.
  - cbn [seq map comprehension]. rewrite !bind_run. cbn [ret fst snd].
    destruct (pick_ctor_spec k s w) as (Hv & Hpos & Hc).
    set (w1 := snd (pick_ctor k (Z.of_nat s) w)) in *.
    destruct (IH (S s) w1) as (Hc' & Hlen & Hnth).
    split; [apply (calm_trans _ w1); assumption|].
    split; [cbn [List.length]; now rewrite Hlen|].
    intros [|j] Hj; cbn [nth_error].
    + rewrite Hv. unfold nontarget_between. cbn.
      now rewrite !Nat.add_0_r.
    + rewrite Hnth by lia. destruct Hc as ((Hu & _) & _).
      rewrite Hu, Hpos, (nontarget_between_succ k s j).
      do 2 f_equal; [lia|f_equal; lia].
Qed.

Lemma build_spec k m w :
  calm w (snd (build_other_ctors k m w)) /\
  List.length (fst (build_other_ctors k m w)) = Z.to_nat m /\
  forall i, (i < Z.to_nat m)%nat ->
    nth_error (fst (build_other_ctors k m w)) i
    = Some (plan_entry k i (uniform w (uniform_pos w + draws_before k i))).
Proof. unfold build_other_ctors, range, draws_before. apply (build_from k _ 0%nat). Qed.

Lemma iter_ext {A : Type} (f g : A -> A) n x :
  (forall y, f y = g y) -> Nat.iter n f x = Nat.iter n g x.
Proof.
  intros Hfg. induction n as [|n IH]; [reflexivity|].
  now rewrite !Nat.iter_succ, IH, Hfg.
Qed.

Lemma step_layout cfg w w' :
  step cfg (fst (make_print_one cfg w)) w'
  = step cfg (print_one_csv (layout cfg w)) w'.
Proof.
  unfold make_print_one, layout. destruct (csv_col cfg) as [k|].
  - rewrite bind_run. reflexivity.
  - apply step_plain.
Qed.

Lemma loop_entry_calm cfg w : calm w (loop_entry cfg w).
Proof.
  unfold loop_entry, make_print_one. destruct (csv_col cfg) as [k|].
  - rewrite bind_run. cbn [ret snd]. apply build_spec.
  - apply calm_refl.
Qed.

Lemma after_rows_layout cfg w r :
  after_rows cfg w r
  = Nat.iter r (step cfg (print_one_csv (layout cfg w))) (loop_entry cfg w).
Proof. unfold after_rows. apply iter_ext. intros y. apply step_layout. Qed.

Lemma main_after_rows a cfg w :
  parse_args a = inr cfg ->
  main a w = (Returned, after_rows cfg w (Z.to_nat (count cfg))).
Proof. intros Hp. now rewrite (main_run _ _ _ Hp). Qed.

Lemma rows_lines_free (rows : list (list string)) :
  Forall (fun row => Forall (fun f => clean f = true) row) rows ->
  Forall (fun l => free_of newline l = true) (map (join ",") rows).
Proof.
  induction 1 as [|row rows Hrow _ IH]; [constructor|].
  cbn [map]. constructor; [|exact IH].
  apply string_forall_concat; [reflexivity|].
  eapply Forall_impl; [|exact Hrow]. intros f. apply clean_free_newline.
Qed.

(** The rows of a run from process start: what is on standard output
    after [r] passes, and what each row holds. *)
Lemma rows_after cfg u z r :
  exists rows,
    List.length rows = r /\
    stdout (after_rows cfg (process_start u z) r) = unlines (map (join ",") rows) /\
    splitlines (stdout (after_rows cfg (process_start u z) r)) = map (join ",") rows /\
    Forall (fun row => Forall (fun f => clean f = true) row) rows /\
    forall i row,
      nth_error rows i = Some row ->
      row_ok (sample cfg z i)
             (-1 + Z.of_nat i * Z.of_nat (seq_count (layout cfg (process_start u z))))
             (layout cfg (process_start u z)) row.
Proof.
  set (w0 := process_start u z). set (plan := layout cfg w0).
  rewrite after_rows_layout. fold plan.
  destruct (loop_entry_calm cfg w0) as ((_ & Hz & Hp & Ho) & Hn).
  destruct (run_csv cfg plan r (loop_entry cfg w0))
    as (rows & Hlen & Hout & _ & _ & _ & _ & Hrows).
  rewrite Hz, Hp, Hn in Hrows. rewrite Ho in Hout. cbn in Hout.
  assert (Hclean : Forall (fun row => Forall (fun f => clean f = true) row) rows).
  { apply Forall_forall. intros row Hin.
    destruct (In_nth_error _ _ Hin) as [i Hi].
    exact (row_ok_clean _ _ _ _ (Hrows _ _ Hi)). }
  exists rows. split; [exact Hlen|]. split; [exact Hout|].
  split; [|split; [exact Hclean|exact Hrows]].
  rewrite Hout. apply splitlines_unlines, rows_lines_free, Hclean.
Qed.

(** Each pass appends one line to what the passes before it wrote. *)
Lemma lines_after_succ cfg u z r :
  exists line,
    splitlines (stdout (after_rows cfg (process_start u z) (S r)))
    = (splitlines (stdout (after_rows cfg (process_start u z) r)) ++ [line])%list.
Proof.
  destruct (rows_after cfg u z r) as (rows & _ & Hout & Hlines & Hclean & _).
  rewrite Hlines. revert Hout. rewrite !after_rows_layout, Nat.iter_succ.
  set (plan := layout cfg (process_start u z)).
  set (wr := Nat.iter r _ _). intros Hout.
  destruct (step_csv cfg plan wr) as (fs & Hfs & Sout & _).
  exists (join "," fs). rewrite Sout, Hout, <- unlines_app.
  apply splitlines_unlines. apply Forall_app. split.
  - apply rows_lines_free, Hclean.
  - apply (rows_lines_free [fs]). constructor; [|constructor].
    exact (row_ok_clean _ _ _ _ Hfs).
Qed.

Lemma parse_args_accepts a :
  opt_distr a = None \/ opt_distr a = Some "gauss" ->
  parse_args a =
  inr (mkNamespace (or_default 1000 (opt_count a)) "gauss"
                   (or_default pos_zero (opt_mean a))
                   (or_default float_one (opt_stdev a))
                   (opt_csv_col a) (or_default 8 (opt_csv_col_max a))).
Proof. unfold parse_args. intros [-> | ->]; reflexivity. Qed.

Lemma parse_args_rejects a d :
  opt_distr a = Some d -> d <> "gauss" -> parse_args a = inl 2.
Proof.
  unfold parse_args. intros -> Hd. simpl. rewrite orb_false_r.
  apply String.eqb_neq in Hd. now rewrite Hd.
Qed.

(** With a standard deviation of zero the sample is the mean [0.0],
    whatever finite deviate was drawn. *)
Lemma zero_stdev_sample zv :
  is_finite zv = true -> float_add pos_zero (float_mul zv pos_zero) = pos_zero.
Proof. destruct zv as [[|]|[|]| |[|] m e]; simpl; try discriminate; reflexivity. Qed.

(** Finiteness matters: an infinite deviate would give [nan]. *)
Lemma zero_stdev_infinite_deviate s :
  float_add pos_zero (float_mul (S754_infinity s) pos_zero) = S754_nan.
Proof. reflexivity. Qed.

(** * Facts about the rows of a run *)

(** The lines of a run from process start are the joined rows, one per
    pass, each written under the layout. *)
Lemma main_rows a cfg u z :
  parse_args a = inr cfg ->
  exists rows,
    splitlines (stdout (snd (main a (process_start u z)))) = map (join ",") rows /\
    List.length rows = Z.to_nat (count cfg) /\
    forall r row,
      nth_error rows r = Some row ->
      Forall (fun f => clean f = true) row /\
      row_ok (sample cfg z r)
             (-1 + Z.of_nat r * Z.of_nat (seq_count (layout cfg (process_start u z))))
             (layout cfg (process_start u z)) row.
Proof.
  intros Hp. rewrite (main_after_rows _ _ _ Hp). cbn [snd].
  destruct (rows_after cfg u z (Z.to_nat (count cfg)))
    as (rows & Hlen & _ & Hl & Hclean & Hrows).
  exists rows. split; [exact Hl|]. split; [exact Hlen|].
  intros r row Hr. split; [|exact (Hrows _ _ Hr)].
  rewrite Forall_forall in Hclean. apply Hclean.
  exact (nth_error_In _ _ Hr).
Qed.

Lemma nth_error_map_inv {A B : Type} (f : A -> B) l n y :
  nth_error (map f l) n = Some y -> exists x, nth_error l n = Some x /\ y = f x.
Proof.
  rewrite nth_error_map. destruct (nth_error l n) as [x|]; [|discriminate].
  intros [= <-]. exists x. split; reflexivity.
Qed.

Lemma layout_csv cfg w k :
  csv_col cfg = Some k ->
  layout cfg w = fst (build_other_ctors k (csv_col_max cfg) w).
Proof. unfold layout. now intros ->. Qed.

Lemma plan_length k m w :
  List.length (fst (build_other_ctors k m w)) = Z.to_nat m.
Proof. apply build_spec. Qed.

(** The target column holds [None] when it is a column of the row. *)
Lemma plan_target k m w :
  0 <= k < m -> nth_error (fst (build_other_ctors k m w)) (Z.to_nat k) = Some None.
Proof.
  intros Hk. destruct (build_spec k m w) as (_ & _ & Hnth).
  rewrite Hnth by lia. unfold plan_entry.
  rewrite Z2Nat.id by lia. now rewrite Z.eqb_refl.
Qed.

(** Every other column holds the generator its draw selected. *)
Lemma plan_filler k m w i :
  (i < Z.to_nat m)%nat ->
  Z.of_nat i <> k ->
  nth_error (fst (build_other_ctors k m w)) i
  = Some (Some (selected (uniform w (uniform_pos w + draws_before k i)))).
Proof.
  intros Hi Hk. destruct (build_spec k m w) as (_ & _ & Hnth).
  rewrite Hnth by exact Hi. unfold plan_entry.
  apply Z.eqb_neq in Hk. now rewrite Hk.
Qed.

Lemma row_split x n plan row :
  plan <> [] ->
  row_ok x n plan row ->
  split comma (join "," row) = row.
Proof.
  intros Hne Hrow. apply split_join.
  - intros ->. apply row_ok_length in Hrow. destruct plan; [congruence|discriminate].
  - eapply Forall_impl; [|exact (row_ok_clean _ _ _ _ Hrow)].
    intros f. apply clean_free_comma.
Qed.

Lemma is_seq_true oc : is_seq oc = true <-> oc = Some Seq_int.
Proof.
  destruct oc as [[| |]|]; simpl; split; intros H; try discriminate; reflexivity.
Qed.

(** Counter columns are numbered from the left by [seq_before]. *)
Lemma seq_before_lt plan : forall i j,
  (i < j)%nat ->
  nth_error plan i = Some (Some Seq_int) ->
  (seq_before i plan < seq_before j plan)%nat.
Proof.
  induction plan as [|oc plan IH]; intros [|i] [|j] Hij Hi;
    try lia; try discriminate.
  - injection Hi as ->. pose proof (seq_before_cons j (Some Seq_int) plan) as H.
    change (bump (Some Seq_int)) with 1 in H.
    change (seq_before 0 (Some Seq_int :: plan)) with 0%nat. lia.
  - simpl in Hi. pose proof (IH i j ltac:(lia) Hi).
    pose proof (seq_before_cons i oc plan). pose proof (seq_before_cons j oc plan).
    lia.
Qed.

Lemma seq_before_bound plan : forall i,
  nth_error plan i = Some (Some Seq_int) ->
  (seq_before i plan < seq_count plan)%nat.
Proof.
  induction plan as [|oc plan IH]; intros [|i] Hi; try discriminate.
  - injection Hi as ->. pose proof (seq_count_cons (Some Seq_int) plan) as H.
    change (bump (Some Seq_int)) with 1 in H.
    change (seq_before 0 (Some Seq_int :: plan)) with 0%nat. lia.
  - simpl in Hi. pose proof (IH i Hi).
    pose proof (seq_before_cons i oc plan). pose proof (seq_count_cons oc plan).
    lia.
Qed.

Lemma seq_before_onto plan : forall j,
  (j < seq_count plan)%nat ->
  exists i, nth_error plan i = Some (Some Seq_int) /\ seq_before i plan = j.
Proof.
  induction plan as [|oc plan IH]; intros j Hj.
  - unfold seq_count in Hj. simpl in Hj. lia.
  - pose proof (seq_count_cons oc plan) as Hc. unfold bump in Hc.
    destruct (is_seq oc) eqn:Hs.
    + destruct j as [|j].
      * exists 0%nat. apply is_seq_true in Hs. subst oc. split; reflexivity.
      * destruct (IH j ltac:(lia)) as (i & Hi & Hb). exists (S i).
        split; [exact Hi|].
        pose proof (seq_before_cons i oc plan) as Hb'. unfold bump in Hb'.
        rewrite Hs in Hb'. lia.
    + destruct (IH j ltac:(lia)) as (i & Hi & Hb). exists (S i).
      split; [exact Hi|].
      pose proof (seq_before_cons i oc plan) as Hb'. unfold bump in Hb'.
      rewrite Hs in Hb'. lia.
Qed.

(** * Facts about the counter and the pool *)

Lemma call_seq_int w : fst (call Seq_int w) = VInt (seq_int_N w + 1).
Proof. reflexivity. Qed.

(** Whatever calls are interleaved, the counter calls return the
    integers that follow [_seq_int.N], in order. *)
Lemma seq_values_run cs : forall w,
  seq_values cs (fst (comprehension call cs w))
  = map (fun j => VInt (seq_int_N w + 1 + Z.of_nat j)) (seq 0 (seq_calls cs)) /\
  seq_int_N (snd (comprehension call cs w)) = seq_int_N w + Z.of_nat (seq_calls cs).
Proof.
  induction cs as [|c cs IH]; intros w.
  - split; [reflexivity|]. cbn. lia.
  - cbn [comprehension]. rewrite !bind_run. cbn [ret fst snd].
    destruct (call_spec c w) as (_ & Hn & _).
    destruct (IH (snd (call c w))) as [Hv Hn'].
    unfold seq_values, seq_calls in *. cbn [combine filter fst].
    destruct c; cbn [ctor_eqb map snd List.length] in *;
      unfold bump in Hn; cbn [is_seq] in Hn.
    + rewrite Hv, Hn', Hn. split; [|lia].
      apply map_ext. intros j. f_equal. lia.
    + rewrite Hv, Hn', Hn, call_seq_int. split; [|lia].
      cbn [seq map]. rewrite Z.add_0_r. f_equal.
      rewrite <- seq_shift, map_map. apply map_ext. intros j. f_equal. lia.
    + rewrite Hv, Hn', Hn. split; [|lia].
      apply map_ext. intros j. f_equal. lia.
Qed.

Lemma selected_block q j : selected (4 * q + j) = selected j.
Proof.
  unfold selected. do 2 f_equal. change (Z.of_nat (List.length RANDOM_CTORS)) with 4.
  rewrite N2Z.inj_add, N2Z.inj_mul, Z.add_comm, Z.mul_comm.
  apply Z_mod_plus_full.
Qed.

Lemma nontarget_between_snoc k n :
  nontarget_between k 0 (S n)
  = (nontarget_between k 0 n + nontarget_between k n 1)%nat.
Proof.
  unfold nontarget_between. rewrite seq_S, map_app, filter_app, length_app.
  reflexivity.
Qed.

Lemma draws_before_mono k i j :
  (i <= j)%nat -> (draws_before k i <= draws_before k j)%nat.
Proof.
  unfold draws_before. induction 1 as [|j _ IH]; [lia|].
  rewrite nontarget_between_snoc. lia.
Qed.

(** A non-target column reads a draw that no later column reads. *)
Lemma draws_before_lt k i j :
  (i < j)%nat -> Z.of_nat i <> k -> (draws_before k i < draws_before k j)%nat.
Proof.
  intros Hij Hk. apply Nat.lt_le_trans with (draws_before k (S i)).
  - unfold draws_before. rewrite nontarget_between_snoc.
    unfold nontarget_between at 3. cbn [seq map filter].
    apply Z.eqb_neq in Hk. rewrite Hk. cbn. lia.
  - apply draws_before_mono. lia.
Qed.

(** * Rows without a target column do not depend on the samples *)

Lemma alike_ret {A : Type} (a : A) : alike (ret a) (ret a).
Proof. intros w w' H. split; [reflexivity|exact H]. Qed.

Lemma alike_bind {A B : Type} (c c' : M A) (k k' : A -> M B) :
  alike c c' -> (forall a, alike (k a) (k' a)) -> alike (bind c k) (bind c' k').
Proof.
  intros Hc Hk w w' H. rewrite !bind_run.
  destruct (Hc w w' H) as [Hv Hw]. rewrite Hv. exact (Hk _ _ _ Hw).
Qed.

Lemma alike_randbelow n : alike (_randbelow n) (_randbelow n).
Proof.
  intros w w' (Hu & Hp & Hn & Ho). unfold _randbelow, same_out. cbn.
  rewrite Hu, Hp. repeat split; congruence.
Qed.

Lemma alike_randint a b : alike (randint a b) (randint a b).
Proof.
  apply alike_bind; [apply alike_randbelow|]. intros r. apply alike_ret.
Qed.

Lemma alike_seq_int : alike _seq_int _seq_int.
Proof.
  intros w w' (Hu & Hp & Hn & Ho). unfold _seq_int, same_out. cbn.
  rewrite Hn. repeat split; congruence.
Qed.

Lemma alike_print s : alike (print s) (print s).
Proof.
  intros w w' (Hu & Hp & Hn & Ho). unfold print, same_out. cbn.
  rewrite Ho. repeat split; congruence.
Qed.

Lemma alike_comprehension {A B : Type} (f f' : A -> M B) xs :
  (forall x, In x xs -> alike (f x) (f' x)) ->
  alike (comprehension f xs) (comprehension f' xs).
Proof.
  induction xs as [|x xs IH]; intros Hf; cbn [comprehension].
  - apply alike_ret.
  - apply alike_bind; [apply Hf; left; reflexivity|]. intros y.
    apply alike_bind; [apply IH; intros x' Hx; apply Hf; right; exact Hx|].
    intros ys. apply alike_ret.
Qed.

Lemma alike_call c : alike (call c) (call c).
Proof.
  destruct c; unfold call.
  - apply alike_bind; [apply alike_randint|]. intros v. apply alike_ret.
  - apply alike_bind; [apply alike_seq_int|]. intros v. apply alike_ret.
  - apply alike_bind; [|intros v; apply alike_ret]. unfold _random_str.
    apply alike_bind; [apply alike_randint|]. intros l.
    apply alike_bind; [|intros cs; apply alike_ret].
    apply alike_comprehension. intros _ _.
    apply alike_bind; [apply alike_randint|]. intros c. apply alike_ret.
Qed.

(** A field with a generator is the same whatever the sample. *)
Lemma alike_field x x' oc : has_ctor oc -> alike (field x oc) (field x' oc).
Proof.
  destruct oc as [c|]; [intros _|intros H; now destruct H].
  unfold field. apply alike_bind; [apply alike_call|]. intros v. apply alike_ret.
Qed.

Lemma alike_print_one_csv plan x x' :
  Forall has_ctor plan -> alike (print_one_csv plan x) (print_one_csv plan x').
Proof.
  intros Hall. unfold print_one_csv.
  apply alike_bind; [|intros data; apply alike_print].
  apply alike_comprehension. intros oc Hin. apply alike_field.
  rewrite Forall_forall in Hall. exact (Hall _ Hin).
Qed.

Lemma alike_step cfg cfg' plan w w' :
  Forall has_ctor plan ->
  same_out w w' ->
  same_out (step cfg (print_one_csv plan) w) (step cfg' (print_one_csv plan) w').
Proof.
  intros Hall H. unfold step, sample_then_emit. rewrite !bind_run.
  apply alike_print_one_csv; [exact Hall|].
  destruct H as (Hu & Hp & Hn & Ho). repeat split; assumption.
Qed.

Lemma alike_iter cfg cfg' plan r : forall w w',
  Forall has_ctor plan ->
  same_out w w' ->
  same_out (Nat.iter r (step cfg (print_one_csv plan)) w)
           (Nat.iter r (step cfg' (print_one_csv plan)) w').
Proof.
  induction r as [|r IH]; intros w w' Hall H; [exact H|].
  rewrite !Nat.iter_succ. apply alike_step; [exact Hall|]. now apply IH.
Qed.

Lemma alike_build k m : alike (build_other_ctors k m) (build_other_ctors k m).
Proof.
  unfold build_other_ctors. apply alike_comprehension. intros i _.
  unfold pick_ctor. destruct (negb (i =? k)); [|apply alike_ret].
  apply alike_bind; [|intros c; apply alike_ret].
  unfold choice. apply alike_bind; [apply alike_randbelow|].
  intros j. apply alike_ret.
Qed.

(** With the target out of range no plan entry is [None]. *)
Lemma plan_all_filler k m w :
  k < 0 \/ m <= k -> Forall has_ctor (fst (build_other_ctors k m w)).
Proof.
  intros Hk. apply Forall_forall. intros oc Hin.
  destruct (In_nth_error _ _ Hin) as [i Hi].
  assert (Hlt : (i < Z.to_nat m)%nat).
  { rewrite <- (plan_length k m w). apply nth_error_Some. congruence. }
  rewrite plan_filler in Hi by lia. injection Hi as <-. discriminate.
Qed.

(** Two runs that differ only in the mean, the standard deviation and
    the normal tape write the same text when the target is out of range. *)
Lemma out_of_range_same_stdout a a' cfg cfg' u z z' k :
  parse_args a = inr cfg ->
  parse_args a' = inr cfg' ->
  count cfg' = count cfg ->
  csv_col cfg = Some k ->
  csv_col cfg' = Some k ->
  csv_col_max cfg' = csv_col_max cfg ->
  k < 0 \/ csv_col_max cfg <= k ->
  stdout (snd (main a' (process_start u z')))
  = stdout (snd (main a (process_start u z))).
Proof.
  intros Hp Hp' Hc Hk Hk' Hm Hout.
  rewrite (main_after_rows _ _ _ Hp), (main_after_rows _ _ _ Hp').
  cbn [snd]. rewrite !after_rows_layout, Hc.
  rewrite (layout_csv _ _ _ Hk), (layout_csv _ _ _ Hk'), Hm.
  unfold loop_entry, make_print_one. rewrite Hk, Hk', !bind_run, Hm.
  cbn [ret snd].
  assert (H0 : same_out (process_start u z') (process_start u z))
    by (repeat split).
  destruct (alike_build k (csv_col_max cfg) _ _ H0) as [Hplan Hw].
  rewrite Hplan.
  apply (alike_iter cfg' cfg); [|exact Hw].
  apply plan_all_filler, Hout.
Qed.

(** * The claims *)

(** C1. For every accepted configuration with [count = N >= 0] (the
    distribution is then the supported one), the run ends normally with
    exactly [N] lines on standard output, and the output is built by
    [N] passes of sample-then-emit, each pass appending one line to the
    lines written before it. *)
Theorem main_emits_count_lines a cfg u z :
  parse_args a = inr cfg ->
  0 <= count cfg ->
  let w0 := process_start u z in
  main a w0 = (Returned, after_rows cfg w0 (Z.to_nat (count cfg))) /\
  exit_status (fst (main a w0)) = 0 /\
  Z.of_nat (List.length (splitlines (stdout (snd (main a w0))))) = count cfg /\
  splitlines (stdout (after_rows cfg w0 0)) = [] /\
  forall r, exists line,
    splitlines (stdout (after_rows cfg w0 (S r)))
    = (splitlines (stdout (after_rows cfg w0 r)) ++ [line])%list.
Proof.
  intros Hp Hn w0. rewrite (main_after_rows _ _ _ Hp). cbn [fst snd exit_status].
  split; [reflexivity|]. split; [reflexivity|].
  split; [|split].
  - destruct (rows_after cfg u z (Z.to_nat (count cfg))) as (rows & Hlen & _ & Hl & _).
    fold w0 in Hl. rewrite Hl, length_map, Hlen. lia.
  - destruct (rows_after cfg u z 0) as (rows & Hlen & _ & Hl & _).
    fold w0 in Hl. rewrite Hl. destruct rows; [reflexivity|discriminate].
  - intros r. apply lines_after_succ.
Qed.

(** C3. A [--distr] value other than ["gauss"] is refused by argument
    parsing: the process exits with status 2, and the world, standard
    output included, is as it was. *)
Theorem unsupported_distr_rejected a d w :
  opt_distr a = Some d ->
  d <> "gauss" ->
  parse_args a = inl 2 /\
  main a w = (SystemExit 2, w) /\
  exit_status (fst (main a w)) <> 0 /\
  stdout (snd (main a w)) = stdout w.
Proof.
  intros Ha Hd. pose proof (parse_args_rejects _ _ Ha Hd) as Hp.
  unfold main. rewrite Hp. cbn. repeat split; discriminate.
Qed.

(** C8. [--count 5 --distr gauss --mean 0 --stdev 0] prints five lines
    [0.0]: every sample is [0.0 + z * 0.0 = 0.0], for every finite
    deviate [z] of the noise source. *)
Theorem zero_stdev_prints_zeros u z :
  (forall i, is_finite (z i) = true) ->
  let w0 := process_start u z in
  fst (main argv_zero_stdev w0) = Returned /\
  stdout (snd (main argv_zero_stdev w0))
    = unlines ["0.0"; "0.0"; "0.0"; "0.0"; "0.0"] /\
  splitlines (stdout (snd (main argv_zero_stdev w0)))
    = ["0.0"; "0.0"; "0.0"; "0.0"; "0.0"] /\
  forall cfg r, parse_args argv_zero_stdev = inr cfg -> sample cfg z r = pos_zero.
Proof.
  intros Hz w0.
  assert (Hout : stdout (snd (main argv_zero_stdev w0))
                 = unlines ["0.0"; "0.0"; "0.0"; "0.0"; "0.0"]).
  { rewrite (main_after_rows argv_zero_stdev _ w0 eq_refl).
    change (Z.to_nat (count _)) with 5%nat.
    cbn -[float_add float_mul].
    now rewrite !zero_stdev_sample by apply Hz. }
  split; [reflexivity|]. split; [exact Hout|]. split.
  - rewrite Hout. reflexivity.
  - intros cfg r [= <-]. unfold sample. cbn [mean stdev].
    apply zero_stdev_sample, Hz.
Qed.

(** C9. A negative [--count] is accepted like any other integer: the
    configuration is built, the loop body never runs, nothing is written
    and the run ends normally. *)
Theorem negative_count_emits_nothing a n w :
  opt_count a = Some n ->
  n < 0 ->
  opt_distr a = None \/ opt_distr a = Some "gauss" ->
  exists cfg,
    parse_args a = inr cfg /\
    count cfg = n /\
    fst (main a w) = Returned /\
    exit_status (fst (main a w)) = 0 /\
    stdout (snd (main a w)) = stdout w /\
    (stdout w = "" -> splitlines (stdout (snd (main a w))) = []).
Proof.
  intros Hc Hn Hd. pose proof (parse_args_accepts a Hd) as Hp.
  eexists. split; [exact Hp|]. rewrite (main_after_rows _ _ _ Hp).
  cbn [count fst snd exit_status]. rewrite Hc. cbn [or_default].
  split; [reflexivity|]. split; [reflexivity|]. split; [reflexivity|].
  replace (Z.to_nat n) with 0%nat by lia. unfold after_rows. cbn [Nat.iter].
  destruct (loop_entry_calm
              (mkNamespace n "gauss" (or_default pos_zero (opt_mean a))
                 (or_default float_one (opt_stdev a)) (opt_csv_col a)
                 (or_default 8 (opt_csv_col_max a))) w) as ((_ & _ & _ & Ho) & _).
  split; [exact Ho|]. intros Hw.
  transitivity (splitlines (stdout w)); [exact (f_equal splitlines Ho)|].
  rewrite Hw. reflexivity.
Qed.

(** C2. In CSV mode with [csv-col = k], [csv-col-max = M] and
    [0 <= k < M], every line is the comma-join of [M] fields none of
    which holds a comma, so it splits back into exactly those [M]
    fields; the field at index [k] is [str] of the sample of that row,
    and it reads as a float. *)
Theorem csv_rows_have_M_fields a cfg u z k M :
  parse_args a = inr cfg ->
  csv_col cfg = Some k ->
  csv_col_max cfg = M ->
  0 <= k < M ->
  let out := splitlines (stdout (snd (main a (process_start u z)))) in
  List.length out = Z.to_nat (count cfg) /\
  forall r line,
    nth_error out r = Some line ->
    exists data,
      line = join "," data /\
      Forall (fun f => free_of comma f = true) data /\
      split comma line = data /\
      List.length (split comma line) = Z.to_nat M /\
      nth_error (split comma line) (Z.to_nat k) = Some (str_float (sample cfg z r)) /\
      float_literal (str_float (sample cfg z r)) = true.
Proof.
  intros Hp Hk HM Hrange out.
  destruct (main_rows a cfg u z Hp) as (rows & Hout & Hlen & Hrows).
  subst out. rewrite Hout, length_map. split; [exact Hlen|].
  intros r line Hr.
  destruct (nth_error_map_inv _ _ _ _ Hr) as (row & Hrow & ->).
  destruct (Hrows _ _ Hrow) as [Hclean Hok].
  rewrite (layout_csv _ _ _ Hk), HM in Hok.
  set (plan := fst (build_other_ctors k M (process_start u z))) in *.
  assert (Hplan : List.length plan = Z.to_nat M) by apply plan_length.
  assert (Hne : plan <> []).
  { intros E. rewrite E in Hplan. simpl in Hplan. lia. }
  pose proof (row_split _ _ _ _ Hne Hok) as Hsplit.
  exists row. split; [reflexivity|].
  split; [eapply Forall_impl; [|exact Hclean]; intros f; apply clean_free_comma|].
  split; [exact Hsplit|]. rewrite Hsplit.
  split; [rewrite (row_ok_length _ _ _ _ Hok); exact Hplan|].
  split; [|apply str_float_literal].
  destruct (row_ok_nth _ _ _ _ _ _ Hok (plan_target k M _ Hrange)) as (f & Hf & Hfok).
  cbn [field_ok] in Hfok. now rewrite Hf, Hfok.
Qed.

(** C5. In CSV mode the plan is drawn once, before anything is
    written; it has one entry per column, [csv_col_max] of them; every
    pass of the loop runs [print_one] closed over that same list; every
    non-target column has a generator in it; and in every row the field
    of such a column is something that column's generator writes. *)
Theorem filler_plan_fixed a cfg u z k :
  parse_args a = inr cfg ->
  csv_col cfg = Some k ->
  let w0 := process_start u z in
  let plan := fst (build_other_ctors k (csv_col_max cfg) w0) in
  let w1 := snd (build_other_ctors k (csv_col_max cfg) w0) in
  make_print_one cfg w0 = (print_one_csv plan, w1) /\
  stdout w1 = "" /\
  List.length plan = Z.to_nat (csv_col_max cfg) /\
  snd (main a w0)
    = Nat.iter (Z.to_nat (count cfg)) (step cfg (print_one_csv plan)) w1 /\
  (forall i, (i < List.length plan)%nat -> Z.of_nat i <> k ->
             exists c, nth_error plan i = Some (Some c)) /\
  exists rows,
    splitlines (stdout (snd (main a w0))) = map (join ",") rows /\
    List.length rows = Z.to_nat (count cfg) /\
    forall r row,
      nth_error rows r = Some row ->
      List.length row = List.length plan /\
      (plan <> [] -> split comma (join "," row) = row) /\
      forall i c,
        nth_error plan i = Some (Some c) ->
        exists f, nth_error row i = Some f /\
                  produced_by c (counter_value plan r i - 1) f.
Proof.
  intros Hp Hk w0 plan w1.
  assert (Hmk : make_print_one cfg w0 = (print_one_csv plan, w1)).
  { unfold make_print_one. rewrite Hk, bind_run. reflexivity. }
  split; [exact Hmk|].
  split; [apply (build_spec k (csv_col_max cfg) w0)|].
  split; [apply plan_length|].
  split.
  { rewrite (main_run _ _ _ Hp), Hmk. reflexivity. }
  split.
  { intros i Hi Hik. unfold plan in *. rewrite plan_length in Hi.
    rewrite (plan_filler _ _ _ _ Hi Hik). eexists. reflexivity. }
  destruct (main_rows a cfg u z Hp) as (rows & Hout & Hlen & Hrows).
  exists rows. split; [exact Hout|]. split; [exact Hlen|].
  intros r row Hr. destruct (Hrows _ _ Hr) as [_ Hok].
  rewrite (layout_csv _ _ _ Hk) in Hok. fold w0 plan in Hok.
  split; [exact (row_ok_length _ _ _ _ Hok)|].
  split; [intros Hne; exact (row_split _ _ _ _ Hne Hok)|].
  intros i c Hi. destruct (row_ok_nth _ _ _ _ _ _ Hok Hi) as (f & Hf & Hfok).
  exists f. split; [exact Hf|]. cbn [field_ok] in Hfok. unfold counter_value.
  now replace (Z.of_nat r * Z.of_nat (seq_count plan) + Z.of_nat (seq_before i plan) - 1)
    with (-1 + Z.of_nat r * Z.of_nat (seq_count plan) + Z.of_nat (seq_before i plan)) by lia.
Qed.

(** C4, as the code has it. The counter starts at [-1]; [_seq_int]
    adds one and returns the new value; nothing else in the script
    writes it; so the counter calls of a run, however interleaved with
    other generator calls, return [0, 1, 2, ...] in order. *)
Theorem seq_int_counts_from_zero :
  (forall u z, seq_int_N (process_start u z) = -1) /\
  (forall w, fst (_seq_int w) = seq_int_N w + 1 /\
             seq_int_N (snd (_seq_int w)) = seq_int_N w + 1) /\
  (forall u z, fst (_seq_int (process_start u z)) = 0) /\
  (forall w, seq_int_N (snd (_random_int w)) = seq_int_N w /\
             seq_int_N (snd (_random_str w)) = seq_int_N w) /\
  (forall mu sigma s w, seq_int_N (snd (rng mu sigma w)) = seq_int_N w /\
                        seq_int_N (snd (print s w)) = seq_int_N w) /\
  (forall k m w, seq_int_N (snd (build_other_ctors k m w)) = seq_int_N w) /\
  forall cs u z,
    seq_values cs (fst (comprehension call cs (process_start u z)))
    = map VInt (range (Z.of_nat (seq_calls cs))).
Proof.
  split; [reflexivity|]. split; [intros w; split; reflexivity|].
  split; [reflexivity|].
  split; [intros w; split; [reflexivity|apply random_str_spec]|].
  split; [intros mu sigma s w; split; reflexivity|].
  split; [intros k m w; apply build_spec|].
  intros cs u z. destruct (seq_values_run cs (process_start u z)) as [Hv _].
  rewrite Hv. unfold range. rewrite Nat2Z.id, map_map.
  apply map_ext. intros j. reflexivity.
Qed.

(** C6. [random.choice] indexes the four-element pool
    [[_random_int, _seq_int, _random_str, _random_str]] with one uniform
    draw below 4; of every four consecutive values of the draw, one
    selects [_random_int], one [_seq_int] and two [_random_str]; and
    each non-target column is selected by a draw of its own. *)
Theorem filler_choice_weights :
  RANDOM_CTORS = [Random_int; Seq_int; Random_str; Random_str] /\
  (forall w,
     fst (choice Random_int RANDOM_CTORS w)
     = nth (Z.to_nat (fst (_randbelow 4 w))) RANDOM_CTORS Random_int /\
     0 <= fst (_randbelow 4 w) < 4 /\
     fst (choice Random_int RANDOM_CTORS w) = selected (uniform w (uniform_pos w))) /\
  (forall q c,
     List.length (filter (fun j => ctor_eqb c (selected (4 * q + j))) [0; 1; 2; 3]%N)
     = weight c) /\
  (weight Random_int = 1 /\ weight Seq_int = 1 /\ weight Random_str = 2)%nat /\
  (forall k m w i,
     (i < Z.to_nat m)%nat ->
     Z.of_nat i <> k ->
     nth_error (fst (build_other_ctors k m w)) i
     = Some (Some (selected (uniform w (uniform_pos w + draws_before k i))))) /\
  (forall k i j,
     (i < j)%nat -> Z.of_nat i <> k -> (draws_before k i < draws_before k j)%nat).
Proof.
  split; [reflexivity|].
  split.
  { intros w. split; [reflexivity|]. split; [|reflexivity].
    apply randbelow_range. lia. }
  split.
  { intros q c. cbn [filter]. rewrite !selected_block. destruct c; reflexivity. }
  split; [repeat split|].
  split; [exact plan_filler|exact draws_before_lt].
Qed.

(** C7, as the code has it. With [csv-col = k] outside
    [[0, csv-col-max)] and [csv-col-max = M >= 1], the run ends
    normally; it writes one line per pass ([count] lines, none when
    [count] is negative); the plan has a generator at every one of its
    [M] entries, so no field is the sample; every line splits into
    exactly [M] fields, each written by the generator of its column; and
    the text written is the same for any other mean, standard deviation
    and normal deviates. *)
Theorem out_of_range_target_all_filler a cfg u z k M :
  parse_args a = inr cfg ->
  csv_col cfg = Some k ->
  csv_col_max cfg = M ->
  1 <= M ->
  k < 0 \/ M <= k ->
  let w0 := process_start u z in
  let plan := fst (build_other_ctors k M w0) in
  let out := splitlines (stdout (snd (main a w0))) in
  fst (main a w0) = Returned /\
  List.length out = Z.to_nat (count cfg) /\
  List.length plan = Z.to_nat M /\
  (forall i, (i < List.length plan)%nat -> exists c, nth_error plan i = Some (Some c)) /\
  (forall r line,
     nth_error out r = Some line ->
     List.length (split comma line) = Z.to_nat M /\
     forall i f,
       nth_error (split comma line) i = Some f ->
       exists c, nth_error plan i = Some (Some c) /\
                 produced_by c (counter_value plan r i - 1) f) /\
  forall a' cfg' z',
    parse_args a' = inr cfg' ->
    count cfg' = count cfg ->
    csv_col cfg' = Some k ->
    csv_col_max cfg' = M ->
    stdout (snd (main a' (process_start u z'))) = stdout (snd (main a w0)).
Proof.
  intros Hp Hk HM HM1 Hout_of_range w0 plan out.
  assert (Hsame : forall a' cfg' z',
            parse_args a' = inr cfg' -> count cfg' = count cfg ->
            csv_col cfg' = Some k -> csv_col_max cfg' = M ->
            stdout (snd (main a' (process_start u z'))) = stdout (snd (main a w0))).
  { intros a' cfg' z' Hp' Hc' Hk' HM'.
    apply (out_of_range_same_stdout a a' cfg cfg' u z z' k); try assumption;
      rewrite HM; [exact HM'|exact Hout_of_range]. }
  assert (Hlenp : List.length plan = Z.to_nat M) by apply plan_length.
  assert (Hfill : forall i, (i < List.length plan)%nat ->
                            exists c, nth_error plan i = Some (Some c)).
  { intros i Hi. rewrite Hlenp in Hi. unfold plan.
    rewrite plan_filler by lia. eexists. reflexivity. }
  split; [now rewrite (main_after_rows _ _ _ Hp)|].
  destruct (main_rows a cfg u z Hp) as (rows & Hout & Hlen & Hrows).
  subst out. fold w0 in Hout. rewrite Hout, length_map.
  split; [exact Hlen|]. split; [exact Hlenp|]. split; [exact Hfill|].
  split; [|exact Hsame].
  intros r line Hr.
  destruct (nth_error_map_inv _ _ _ _ Hr) as (row & Hrow & ->).
  destruct (Hrows _ _ Hrow) as [_ Hok].
  rewrite (layout_csv _ _ _ Hk), HM in Hok. fold w0 plan in Hok.
  assert (Hne : plan <> []).
  { intros E. rewrite E in Hlenp. simpl in Hlenp. lia. }
  rewrite (row_split _ _ _ _ Hne Hok).
  split; [rewrite (row_ok_length _ _ _ _ Hok); exact Hlenp|].
  intros i f Hf.
  assert (Hi : (i < List.length plan)%nat).
  { rewrite <- (row_ok_length _ _ _ _ Hok). apply nth_error_Some. congruence. }
  destruct (Hfill i Hi) as [c Hc]. exists c. split; [exact Hc|].
  destruct (row_ok_nth _ _ _ _ _ _ Hok Hc) as (g & Hg & Hgok).
  assert (g = f) by congruence. subst g. cbn [field_ok] in Hgok. unfold counter_value.
  now replace (Z.of_nat r * Z.of_nat (seq_count plan) + Z.of_nat (seq_before i plan) - 1)
    with (-1 + Z.of_nat r * Z.of_nat (seq_count plan) + Z.of_nat (seq_before i plan)) by lia.
Qed.

(** C10. All counter columns share [_seq_int.N], which moves once per
    call.  With [c] counter columns in the plan, the field of the
    counter column [i] in row [r] is [str] of [r * c] plus the number of
    counter columns left of [i]: the number of counter calls made before
    it in the run.  So within a row the counter fields differ and
    increase from left to right, a row's values lie in
    [[r * c, (r + 1) * c)], and every integer below the number of counter
    calls of the run is the value of one of them.  The plan has
    [csv_col_max] entries, and the counter fields are read off the
    lines as [split] gives them. *)
Theorem counter_shared_by_columns a cfg u z k :
  parse_args a = inr cfg ->
  csv_col cfg = Some k ->
  let w0 := process_start u z in
  let plan := fst (build_other_ctors k (csv_col_max cfg) w0) in
  let c := Z.of_nat (seq_count plan) in
  (forall r i j,
     (i < j)%nat ->
     nth_error plan i = Some (Some Seq_int) ->
     nth_error plan j = Some (Some Seq_int) ->
     counter_value plan r i < counter_value plan r j /\
     str_int (counter_value plan r i) <> str_int (counter_value plan r j)) /\
  (forall r i,
     nth_error plan i = Some (Some Seq_int) ->
     Z.of_nat r * c <= counter_value plan r i < Z.of_nat (S r) * c) /\
  List.length plan = Z.to_nat (csv_col_max cfg) /\
  (forall r line i,
     nth_error (splitlines (stdout (snd (main a w0)))) r = Some line ->
     nth_error plan i = Some (Some Seq_int) ->
     nth_error (split comma line) i = Some (str_int (counter_value plan r i))) /\
  exists rows,
    splitlines (stdout (snd (main a w0))) = map (join ",") rows /\
    List.length rows = Z.to_nat (count cfg) /\
    (forall r row i,
       nth_error rows r = Some row ->
       nth_error plan i = Some (Some Seq_int) ->
       nth_error row i = Some (str_int (counter_value plan r i)) /\
       int_of_str (str_int (counter_value plan r i)) = Some (counter_value plan r i)) /\
    (forall t,
       0 <= t < Z.of_nat (List.length rows) * c ->
       exists r row i,
         nth_error rows r = Some row /\
         nth_error plan i = Some (Some Seq_int) /\
         counter_value plan r i = t).
Proof.
  intros Hp Hk w0 plan c.
  assert (Hmono : forall r i j, (i < j)%nat ->
            nth_error plan i = Some (Some Seq_int) ->
            counter_value plan r i < counter_value plan r j).
  { intros r i j Hij Hi. pose proof (seq_before_lt plan i j Hij Hi).
    unfold counter_value. lia. }
  split.
  { intros r i j Hij Hi _. split; [exact (Hmono r i j Hij Hi)|].
    intros E. apply str_int_inj in E. pose proof (Hmono r i j Hij Hi). lia. }
  split.
  { intros r i Hi. pose proof (seq_before_bound plan i Hi).
    unfold counter_value, c. lia. }
  split; [apply plan_length|].
  destruct (main_rows a cfg u z Hp) as (rows & Hout & Hlen & Hrows).
  assert (Hcell : forall r row i,
            nth_error rows r = Some row ->
            nth_error plan i = Some (Some Seq_int) ->
            row_ok (sample cfg z r)
                   (-1 + Z.of_nat r * Z.of_nat (seq_count plan)) plan row /\
            nth_error row i = Some (str_int (counter_value plan r i))).
  { intros r row i Hr Hi. destruct (Hrows _ _ Hr) as [_ Hok].
    rewrite (layout_csv _ _ _ Hk) in Hok. fold w0 plan in Hok.
    split; [exact Hok|].
    destruct (row_ok_nth _ _ _ _ _ _ Hok Hi) as (f & Hf & Hfok).
    cbn [field_ok produced_by] in Hfok. rewrite Hf, Hfok.
    unfold counter_value. do 2 f_equal. lia. }
  split.
  { intros r line i Hr Hi. fold w0 in Hout. rewrite Hout in Hr.
    destruct (nth_error_map_inv _ _ _ _ Hr) as (row & Hrow & ->).
    destruct (Hcell r row i Hrow Hi) as [Hok Hf].
    assert (Hne : plan <> []) by (intros E; rewrite E in Hi; destruct i; discriminate).
    now rewrite (row_split _ _ _ _ Hne Hok). }
  exists rows. split; [exact Hout|]. split; [exact Hlen|]. split.
  - intros r row i Hr Hi. split; [|apply int_of_str_int].
    exact (proj2 (Hcell r row i Hr Hi)).
  - intros t Ht.
    assert (Hc : 0 < c) by nia.
    pose proof (Z.div_mod t c ltac:(lia)) as Hdm.
    pose proof (Z.mod_pos_bound t c Hc) as Hmod.
    assert (Hq : 0 <= t / c < Z.of_nat (List.length rows)).
    { split; [apply Z.div_pos; lia|apply Z.div_lt_upper_bound; lia]. }
    destruct (nth_error rows (Z.to_nat (t / c))) as [row|] eqn:Hrow.
    + destruct (seq_before_onto plan (Z.to_nat (t mod c))) as (i & Hi & Hb).
      { unfold c in *. lia. }
      exists (Z.to_nat (t / c)), row, i.
      split; [exact Hrow|]. split; [exact Hi|].
      unfold counter_value. fold c. rewrite Hb, !Z2Nat.id by lia. lia.
    + apply nth_error_None in Hrow. lia.
Qed.

(** * Further facts: the run from any state *)

(** A run entered in any world appends its rows to what was written,
    reads one normal deviate per row, and moves the counter by the
    counter columns of each row. *)
Lemma main_any_state a cfg w :
  parse_args a = inr cfg ->
  exists rows,
    List.length rows = Z.to_nat (count cfg) /\
    stdout (snd (main a w)) = stdout w ++ unlines (map (join ",") rows) /\
    uniform (snd (main a w)) = uniform w /\
    normal (snd (main a w)) = normal w /\
    normal_pos (snd (main a w)) = (normal_pos w + Z.to_nat (count cfg))%nat /\
    seq_int_N (snd (main a w))
      = seq_int_N w + Z.of_nat (Z.to_nat (count cfg)) * Z.of_nat (seq_count (layout cfg w)) /\
    forall i row,
      nth_error rows i = Some row ->
      row_ok (sample cfg (normal w) (normal_pos w + i))
             (seq_int_N w + Z.of_nat i * Z.of_nat (seq_count (layout cfg w)))
             (layout cfg w) row.
Proof.
  intros Hp. rewrite (main_after_rows _ _ _ Hp). cbn [snd].
  rewrite after_rows_layout.
  destruct (loop_entry_calm cfg w) as ((Hu & Hz & Hpz & Ho) & Hn).
  destruct (run_csv cfg (layout cfg w) (Z.to_nat (count cfg)) (loop_entry cfg w))
    as (rows & Hlen & Hout & Ru & Rz & Rp & Rn & Hrows).
  exists rows. rewrite Hz, Hpz, Hn in Hrows.
  split; [exact Hlen|]. split; [rewrite Hout, Ho; reflexivity|].
  split; [congruence|]. split; [congruence|].
  split; [rewrite Rp, Hpz; reflexivity|].
  split; [rewrite Rn, Hn; reflexivity|exact Hrows].
Qed.

Lemma map_indexed {A B : Type} (g : A -> B) (h : nat -> B) rows : forall s,
  (forall r row, nth_error rows r = Some row -> g row = h (s + r)%nat) ->
  map g rows = map h (seq s (List.length rows)).
Proof.
  induction rows as [|row rows IH]; intros s H; [reflexivity|].
  cbn [map List.length seq]. f_equal.
  - rewrite (H 0%nat row eq_refl). now rewrite Nat.add_0_r.
  - apply IH. intros r row' Hr.
    rewrite (H (S r) row' Hr). f_equal. lia.
Qed.

Lemma row_ok_sample_only x n row : row_ok x n [None] row -> row = [str_float x].
Proof.
  destruct row as [|f [|g row]]; cbn; try tauto.
  intros [-> _]. reflexivity.
Qed.

Lemma row_ok_no_columns x n row : row_ok x n [] row -> row = [].
Proof. destruct row; cbn; [reflexivity|tauto]. Qed.

Lemma iter_plain_uniform_pos cfg r w :
  uniform_pos (Nat.iter r (step cfg (print_one_csv [None])) w) = uniform_pos w.
Proof.
  induction r as [|r IH]; [reflexivity|].
  rewrite Nat.iter_succ. exact IH.
Qed.

Lemma step_same_parameters cfg cfg' p w :
  mean cfg' = mean cfg -> stdev cfg' = stdev cfg -> step cfg' p w = step cfg p w.
Proof. unfold step, sample_then_emit. now intros -> ->. Qed.

Lemma make_print_one_same_columns cfg cfg' w :
  csv_col cfg' = csv_col cfg ->
  csv_col_max cfg' = csv_col_max cfg ->
  make_print_one cfg' w = make_print_one cfg w.
Proof. unfold make_print_one. now intros -> ->. Qed.

Lemma iter_appends cfg plan r w :
  exists more,
    stdout (Nat.iter r (step cfg (print_one_csv plan)) w) = stdout w ++ more.
Proof.
  destruct (run_csv cfg plan r w) as (rows & _ & Hout & _).
  eexists. exact Hout.
Qed.

(** * Further facts: the plan and the generators, draw by draw *)

Lemma build_pos k len : forall s w,
  uniform_pos (snd (comprehension (pick_ctor k) (map Z.of_nat (seq s len)) w))
  = (uniform_pos w + nontarget_between k s len)%nat.
Proof.
  induction len as [|len IH]; intros s w.
  - cbn. unfold nontarget_between. cbn. lia.
  - cbn [seq map comprehension]. rewrite !bind_run. cbn [ret fst snd].
    destruct (pick_ctor_spec k s w) as (_ & Hpos & _).
    rewrite IH, Hpos, (nontarget_between_succ k s len). lia.
Qed.

Lemma nontarget_one k n :
  nontarget_between k n 1 = if Z.of_nat n =? k then 0%nat else 1%nat.
Proof.
  unfold nontarget_between. cbn [seq map filter].
  destruct (Z.of_nat n =? k); reflexivity.
Qed.

(** Every index but the target, when it is an index, costs one draw. *)
Lemma nontarget_count k n :
  (0 <= k < Z.of_nat n -> nontarget_between k 0 n = (n - 1)%nat) /\
  (~ 0 <= k < Z.of_nat n -> nontarget_between k 0 n = n).
Proof.
  induction n as [|n [IHin IHout]].
  - split; [lia|reflexivity].
  - rewrite nontarget_between_snoc, nontarget_one.
    destruct (Z.eqb_spec (Z.of_nat n) k) as [E|E]; split; intros H.
    + rewrite IHout by lia. lia.
    + lia.
    + rewrite IHin by lia. lia.
    + rewrite IHout by lia. lia.
Qed.

Lemma letters_run xs : forall w,
  fst (comprehension (fun _ : Z => c <- randint ord_a ord_z ;; ret (chr c)) xs w)
  = map (fun i => String (letter (uniform w (uniform_pos w + i)%nat)) "")
        (seq 0 (List.length xs)) /\
  uniform_pos (snd (comprehension
                      (fun _ : Z => c <- randint ord_a ord_z ;; ret (chr c)) xs w))
  = (uniform_pos w + List.length xs)%nat.
Proof.
  induction xs as [|x xs IH]; intros w.
  - cbn. split; [reflexivity|lia].
  - cbn [comprehension]. rewrite !bind_run. cbn [ret fst snd].
    set (w1 := snd (randint ord_a ord_z w)).
    assert (Hu : uniform w1 = uniform w) by reflexivity.
    assert (Hp : uniform_pos w1 = S (uniform_pos w)) by reflexivity.
    destruct (IH w1) as [Hv Hpos]. rewrite Hv, Hpos, Hu, Hp.
    cbn [List.length seq map]. split; [|lia]. f_equal.
    + unfold letter, chr. now rewrite Nat.add_0_r.
    + rewrite <- seq_shift, map_map. apply map_ext. intros i.
      do 3 f_equal. lia.
Qed.

Lemma join_letters l :
  join "" (map (fun a => String a "") l) = string_of_list_ascii l.
Proof.
  unfold join. induction l as [|a l IH]; [reflexivity|].
  cbn [map]. rewrite concat_empty_cons, IH. reflexivity.
Qed.

Lemma length_string_of_list l :
  String.length (string_of_list_ascii l) = List.length l.
Proof. induction l; simpl; congruence. Qed.

Lemma string_forall_get p s : forall i c,
  string_forall p s = true -> String.get i s = Some c -> p c = true.
Proof.
  induction s as [|a s IH]; intros i c; simpl; [discriminate|].
  rewrite andb_true_iff. intros [Ha Hs]. destruct i as [|i].
  - now intros [= <-].
  - apply IH. exact Hs.
Qed.

Lemma map_get s : forall g : nat -> ascii,
  (forall i c, String.get i s = Some c -> g i = c) ->
  map g (seq 0 (String.length s)) = list_ascii_of_string s.
Proof.
  induction s as [|a s IH]; intros g Hg; [reflexivity|].
  cbn [String.length seq map list_ascii_of_string]. f_equal.
  - apply Hg. reflexivity.
  - rewrite <- seq_shift, map_map. apply IH.
    intros i c Hi. apply Hg. exact Hi.
Qed.

Lemma letter_of_lower c :
  is_lower c = true -> letter (N_of_ascii c - 97) = c.
Proof.
  unfold is_lower, letter, ord_a, ord_z. intros H.
  apply andb_true_iff in H. destruct H as [Hlo Hhi].
  apply N.leb_le in Hlo. apply N.leb_le in Hhi.
  rewrite N2Z.inj_sub by exact Hlo.
  rewrite Z.mod_small by lia.
  replace (97 + (Z.of_N (N_of_ascii c) - Z.of_N 97)) with (Z.of_N (N_of_ascii c)) by lia.
  rewrite N2Z.id. apply ascii_N_embedding.
Qed.

(** * Further properties of the script *)

(** X1. Without [--csv-col], line [r] is [str] of the [r]-th sample and
    nothing else: the lines are the samples in order, each reads as a
    float, and the run draws nothing from the uniform generator and
    never calls the counter. *)
Theorem plain_lines_are_samples a cfg u z :
  parse_args a = inr cfg ->
  csv_col cfg = None ->
  let w' := snd (main a (process_start u z)) in
  splitlines (stdout w')
    = map (fun r => str_float (sample cfg z r)) (seq 0 (Z.to_nat (count cfg))) /\
  Forall (fun l => float_literal l = true) (splitlines (stdout w')) /\
  uniform_pos w' = 0%nat /\
  seq_int_N w' = -1.
Proof.
  intros Hp Hk w'.
  assert (Hplan : layout cfg (process_start u z) = [None])
    by (unfold layout; now rewrite Hk).
  assert (Hlines : splitlines (stdout w')
            = map (fun r => str_float (sample cfg z r)) (seq 0 (Z.to_nat (count cfg)))).
  { destruct (main_rows a cfg u z Hp) as (rows & Hout & Hlen & Hrows).
    subst w'. rewrite Hout, <- Hlen. apply map_indexed.
    intros r row Hr. destruct (Hrows _ _ Hr) as [_ Hok].
    rewrite Hplan in Hok. now rewrite (row_ok_sample_only _ _ _ Hok). }
  split; [exact Hlines|]. split.
  - rewrite Hlines. apply Forall_forall. intros l Hin.
    apply in_map_iff in Hin. destruct Hin as (r & <- & _).
    apply str_float_literal.
  - subst w'. rewrite (main_after_rows _ _ _ Hp). cbn [snd].
    rewrite after_rows_layout, Hplan.
    assert (Hentry : loop_entry cfg (process_start u z) = process_start u z)
      by (unfold loop_entry, make_print_one; now rewrite Hk).
    rewrite Hentry. split; [apply iter_plain_uniform_pos|].
    destruct (run_csv cfg [None] (Z.to_nat (count cfg)) (process_start u z))
      as (_ & _ & _ & _ & _ & _ & Hn & _).
    rewrite Hn. change (Z.of_nat (seq_count [None])) with 0.
    rewrite Z.mul_0_r. reflexivity.
Qed.

(** X2. The [else] of lines 36-37 is dead code: whenever [parse_args]
    returns a [Namespace], its [distr] passed the [choices] check and is
    ["gauss"], so [main] takes the first branch of line 33 and the
    [AssertionError] is never raised. *)
Theorem assertion_branch_unreachable :
  (forall a cfg, parse_args a = inr cfg -> distr cfg = "gauss") /\
  (forall a w exc msg, fst (main a w) <> Raised exc msg).
Proof.
  split; [exact parse_args_distr|].
  intros a w exc msg. unfold main.
  destruct (parse_args a) as [code|cfg] eqn:Hp; [discriminate|].
  rewrite (parse_args_distr _ _ Hp), String.eqb_refl. discriminate.
Qed.

(** X3. Entered in any state, an accepted run only appends to standard
    output, leaves both tapes as they are, reads exactly one normal
    deviate per row, and never lowers [_seq_int.N]: it ends
    [rows * c] higher, [c] being the counter columns of the layout. *)
Theorem main_frames_state a cfg w :
  parse_args a = inr cfg ->
  let w' := snd (main a w) in
  (exists out, stdout w' = stdout w ++ out) /\
  uniform w' = uniform w /\
  normal w' = normal w /\
  normal_pos w' = (normal_pos w + Z.to_nat (count cfg))%nat /\
  seq_int_N w'
    = seq_int_N w + Z.of_nat (Z.to_nat (count cfg)) * Z.of_nat (seq_count (layout cfg w)) /\
  seq_int_N w <= seq_int_N w'.
Proof.
  intros Hp w'.
  destruct (main_any_state a cfg w Hp) as (rows & _ & Hout & Hu & Hz & Hpz & Hn & _).
  split; [eexists; exact Hout|]. split; [exact Hu|]. split; [exact Hz|].
  split; [exact Hpz|]. split; [exact Hn|]. subst w'. rewrite Hn. nia.
Qed.

(** X4. The counter is not reset between runs: entered with
    [_seq_int.N = n], a CSV run writes, in row [r] and counter column
    [i], the value [n + 1] plus the number of counter calls the run made
    before it; the text it appends splits into [count] lines whose
    fields, as [split] gives them, hold these values. *)
Theorem counter_fields_from_any_state a cfg w k :
  parse_args a = inr cfg ->
  csv_col cfg = Some k ->
  let plan := fst (build_other_ctors k (csv_col_max cfg) w) in
  exists rows,
    List.length rows = Z.to_nat (count cfg) /\
    stdout (snd (main a w)) = stdout w ++ unlines (map (join ",") rows) /\
    (forall r row i,
       nth_error rows r = Some row ->
       nth_error plan i = Some (Some Seq_int) ->
       nth_error row i = Some (str_int (seq_int_N w + 1 + counter_value plan r i))) /\
    List.length (splitlines (unlines (map (join ",") rows))) = Z.to_nat (count cfg) /\
    forall r line i,
      nth_error (splitlines (unlines (map (join ",") rows))) r = Some line ->
      nth_error plan i = Some (Some Seq_int) ->
      nth_error (split comma line) i
      = Some (str_int (seq_int_N w + 1 + counter_value plan r i)).
Proof.
  intros Hp Hk plan.
  destruct (main_any_state a cfg w Hp) as (rows & Hlen & Hout & _ & _ & _ & _ & Hrows).
  assert (Hcell : forall r row i,
            nth_error rows r = Some row ->
            nth_error plan i = Some (Some Seq_int) ->
            split comma (join "," row) = row /\
            nth_error row i = Some (str_int (seq_int_N w + 1 + counter_value plan r i))).
  { intros r row i Hr Hi. pose proof (Hrows _ _ Hr) as Hok.
    rewrite (layout_csv _ _ _ Hk) in Hok. fold plan in Hok.
    assert (Hne : plan <> []) by (intros E; rewrite E in Hi; destruct i; discriminate).
    split; [exact (row_split _ _ _ _ Hne Hok)|].
    destruct (row_ok_nth _ _ _ _ _ _ Hok Hi) as (f & Hf & Hfok).
    cbn [field_ok produced_by] in Hfok. rewrite Hf, Hfok.
    unfold counter_value. do 2 f_equal. lia. }
  assert (Hlines : splitlines (unlines (map (join ",") rows)) = map (join ",") rows).
  { apply splitlines_unlines, rows_lines_free, Forall_forall. intros row Hin.
    destruct (In_nth_error _ _ Hin) as [r Hr].
    exact (row_ok_clean _ _ _ _ (Hrows _ _ Hr)). }
  exists rows. split; [exact Hlen|]. split; [exact Hout|].
  split; [intros r row i Hr Hi; exact (proj2 (Hcell r row i Hr Hi))|].
  rewrite Hlines. split; [now rewrite length_map|].
  intros r line i Hr Hi.
  destruct (nth_error_map_inv _ _ _ _ Hr) as (row & Hrow & ->).
  destruct (Hcell r row i Hrow Hi) as [Hsplit Hf]. now rewrite Hsplit.
Qed.

(** X5. With [--csv-col-max] zero or negative the plan is empty and
    every line the run writes is the empty line. *)
Theorem nonpositive_columns_empty_lines a cfg u z k :
  parse_args a = inr cfg ->
  csv_col cfg = Some k ->
  csv_col_max cfg <= 0 ->
  fst (build_other_ctors k (csv_col_max cfg) (process_start u z)) = [] /\
  splitlines (stdout (snd (main a (process_start u z))))
    = repeat "" (Z.to_nat (count cfg)).
Proof.
  intros Hp Hk HM.
  assert (Hplan : fst (build_other_ctors k (csv_col_max cfg) (process_start u z)) = []).
  { apply length_zero_iff_nil. rewrite plan_length. lia. }
  split; [exact Hplan|].
  destruct (main_rows a cfg u z Hp) as (rows & Hout & Hlen & Hrows).
  rewrite Hout, <- Hlen, <- (map_const "" rows). apply map_ext_in.
  intros row Hin. destruct (In_nth_error _ _ Hin) as [r Hr].
  destruct (Hrows _ _ Hr) as [_ Hok].
  rewrite (layout_csv _ _ _ Hk), Hplan in Hok.
  now rewrite (row_ok_no_columns _ _ _ Hok).
Qed.

(** X6. [--csv-col 0 --csv-col-max 1] is the plain mode: the one column
    is the sample, no generator is drawn, and the run ends in the same
    world as the run without [--csv-col]. *)
Theorem single_column_csv_is_plain a a' cfg cfg' w :
  parse_args a = inr cfg ->
  parse_args a' = inr cfg' ->
  csv_col cfg = None ->
  csv_col cfg' = Some 0 ->
  csv_col_max cfg' = 1 ->
  count cfg' = count cfg ->
  mean cfg' = mean cfg ->
  stdev cfg' = stdev cfg ->
  main a' w = main a w.
Proof.
  intros Hp Hp' Hk Hk' HM Hc Hm Hs.
  rewrite (main_after_rows _ _ _ Hp), (main_after_rows _ _ _ Hp'). f_equal.
  rewrite !after_rows_layout, Hc.
  assert (Hl : layout cfg w = [None]) by (unfold layout; now rewrite Hk).
  assert (Hl' : layout cfg' w = [None]) by (unfold layout; now rewrite Hk', HM).
  assert (He : loop_entry cfg w = w)
    by (unfold loop_entry, make_print_one; now rewrite Hk).
  assert (He' : loop_entry cfg' w = w)
    by (unfold loop_entry, make_print_one; now rewrite Hk', HM).
  rewrite Hl, Hl', He, He'. apply iter_ext.
  intros y. now apply step_same_parameters.
Qed.

(** X7. Asking for more rows only adds rows: with the other options
    unchanged, the run with the larger [--count] continues the run with
    the smaller one from where it ended, so its output extends the
    other's. *)
Theorem larger_count_extends_output a a' cfg cfg' w :
  parse_args a = inr cfg ->
  parse_args a' = inr cfg' ->
  count cfg <= count cfg' ->
  mean cfg' = mean cfg ->
  stdev cfg' = stdev cfg ->
  csv_col cfg' = csv_col cfg ->
  csv_col_max cfg' = csv_col_max cfg ->
  snd (main a' w)
    = Nat.iter (Z.to_nat (count cfg') - Z.to_nat (count cfg))
               (step cfg (fst (make_print_one cfg w))) (snd (main a w)) /\
  exists more, stdout (snd (main a' w)) = stdout (snd (main a w)) ++ more.
Proof.
  intros Hp Hp' Hc Hm Hs Hk HM.
  assert (Hrun : snd (main a' w)
            = Nat.iter (Z.to_nat (count cfg') - Z.to_nat (count cfg))
                       (step cfg (fst (make_print_one cfg w))) (snd (main a w))).
  { rewrite (main_after_rows _ _ _ Hp), (main_after_rows _ _ _ Hp'). cbn [snd].
    unfold after_rows, loop_entry.
    rewrite (make_print_one_same_columns cfg cfg' w Hk HM).
    rewrite <- Nat.iter_add.
    replace (Z.to_nat (count cfg') - Z.to_nat (count cfg) + Z.to_nat (count cfg))%nat
      with (Z.to_nat (count cfg')) by lia.
    apply iter_ext. intros y. now apply step_same_parameters. }
  split; [exact Hrun|]. rewrite Hrun.
  set (w1 := snd (main a w)).
  rewrite (iter_ext _ (step cfg (print_one_csv (layout cfg w))))
    by (intros y; apply step_layout).
  apply iter_appends.
Qed.

(** X8. Building the plan draws once per column other than the target
    and does nothing else: the plan has one entry per index of
    [range(csv_col_max)], its only [None] is at [csv_col] when that is
    an index, and the uniform generator has advanced by the number of
    the other entries. *)
Theorem plan_shape k m w :
  let plan := fst (build_other_ctors k m w) in
  let w1 := snd (build_other_ctors k m w) in
  List.length plan = Z.to_nat m /\
  (forall i, nth_error plan i = Some None <-> (i < Z.to_nat m)%nat /\ Z.of_nat i = k) /\
  (0 <= k < m -> uniform_pos w1 = (uniform_pos w + (Z.to_nat m - 1))%nat) /\
  (~ 0 <= k < m -> uniform_pos w1 = (uniform_pos w + Z.to_nat m)%nat) /\
  calm w w1.
Proof.
  intros plan w1. destruct (build_spec k m w) as (Hcalm & Hlen & Hnth).
  assert (Hpos : uniform_pos w1 = (uniform_pos w + nontarget_between k 0 (Z.to_nat m))%nat)
    by apply build_pos.
  destruct (nontarget_count k (Z.to_nat m)) as [Hin Hout].
  split; [exact Hlen|]. split; [|split; [|split; [|exact Hcalm]]].
  - intros i. fold plan in Hnth, Hlen. split.
    + intros Hi. assert (Hlt : (i < Z.to_nat m)%nat).
      { rewrite <- Hlen. apply nth_error_Some. congruence. }
      split; [exact Hlt|]. rewrite (Hnth i Hlt) in Hi. unfold plan_entry in Hi.
      destruct (Z.eqb_spec (Z.of_nat i) k); [assumption|discriminate].
    + intros [Hlt Hk]. rewrite (Hnth i Hlt). unfold plan_entry.
      apply Z.eqb_eq in Hk. now rewrite Hk.
  - intros Hk. rewrite Hpos, Hin by lia. reflexivity.
  - intros Hk. rewrite Hpos, Hout by lia. reflexivity.
Qed.

(** X9. [_random_int] returns an integer of [[-1000, 1000]], both ends
    included, for one uniform draw, and every integer of that interval
    is returned for some draw. *)
Theorem random_int_covers_range :
  (forall w,
     -1000 <= fst (_random_int w) <= 1000 /\
     uniform_pos (snd (_random_int w)) = S (uniform_pos w) /\
     calm w (snd (_random_int w))) /\
  forall v z,
    -1000 <= v <= 1000 ->
    fst (_random_int (process_start (tape_for_int v) z)) = v.
Proof.
  split.
  - intros w. split; [apply random_int_range|]. split; [reflexivity|apply randint_calm].
  - intros v z Hv. unfold _random_int, randint. rewrite bind_run.
    cbn [ret fst _randbelow process_start uniform uniform_pos].
    unfold tape_for_int. rewrite Z2N.id by lia.
    change (1000 - -1000 + 1) with 2001. rewrite Z.mod_small by lia. lia.
Qed.

(** X10. [_random_str] draws a length [1 + d mod 8] and then one letter
    per draw: its result has that length, is made of the letters the
    next draws select, and the call consumes the length draw and one
    draw per character, touching nothing else. *)
Theorem random_str_exact w :
  fst (_random_str w) = random_str_of (uniform w) (uniform_pos w) /\
  String.length (fst (_random_str w)) = random_str_length (uniform w) (uniform_pos w) /\
  (1 <= random_str_length (uniform w) (uniform_pos w) <= 8)%nat /\
  uniform_pos (snd (_random_str w))
    = (uniform_pos w + 1 + random_str_length (uniform w) (uniform_pos w))%nat /\
  calm w (snd (_random_str w)).
Proof.
  assert (Hv : fst (_random_str w) = random_str_of (uniform w) (uniform_pos w) /\
               uniform_pos (snd (_random_str w))
               = (uniform_pos w + 1 + random_str_length (uniform w) (uniform_pos w))%nat).
  { unfold _random_str. rewrite !bind_run. cbn [ret fst snd].
    set (l := fst (randint 1 8 w)). set (w1 := snd (randint 1 8 w)).
    assert (Hl : Z.to_nat l = random_str_length (uniform w) (uniform_pos w))
      by reflexivity.
    assert (Hu : uniform w1 = uniform w) by reflexivity.
    assert (Hp : uniform_pos w1 = S (uniform_pos w)) by reflexivity.
    destruct (letters_run (range l) w1) as [Hcs Hpos].
    rewrite Hcs, Hpos, range_length, Hl, Hu, Hp. split; [|lia].
    rewrite <- (map_map (fun i => letter (uniform w (S (uniform_pos w) + i)%nat))
                        (fun a => String a "")).
    rewrite join_letters. unfold random_str_of. f_equal.
    apply map_ext. intros i. do 2 f_equal. lia. }
  destruct Hv as [Hv Hpos]. destruct (random_str_spec w) as (Hcalm & _ & _).
  split; [exact Hv|]. split.
  { rewrite Hv. unfold random_str_of.
    now rewrite length_string_of_list, length_map, length_seq. }
  split.
  { unfold random_str_length.
    pose proof (Z.mod_pos_bound (Z.of_N (uniform w (uniform_pos w))) (8 - 1 + 1)
                  ltac:(lia)). lia. }
  split; [exact Hpos|exact Hcalm].
Qed.

(** X11. Every string of one to eight lowercase letters is a result of
    [_random_str]: the tape that holds its length and its letters makes
    the call return it. *)
Theorem random_str_covers_range s z :
  string_forall is_lower s = true ->
  (1 <= String.length s <= 8)%nat ->
  fst (_random_str (process_start (tape_for s) z)) = s.
Proof.
  intros Hlow Hlen.
  destruct (random_str_exact (process_start (tape_for s) z)) as (Hv & _).
  rewrite Hv. cbn [process_start uniform uniform_pos].
  assert (Hn : random_str_length (tape_for s) 0 = String.length s).
  { unfold random_str_length. cbn [tape_for].
    rewrite nat_N_Z. change (8 - 1 + 1) with 8.
    rewrite Z.mod_small by lia. lia. }
  unfold random_str_of. rewrite Hn.
  rewrite <- (string_of_list_ascii_of_string s) at 2. f_equal.
  apply map_get. intros i c Hi. cbn [Nat.add tape_for]. rewrite Hi.
  apply letter_of_lower. exact (string_forall_get _ _ _ _ Hlow Hi).
Qed.

End Program.

(** * The exact-decimal formatter writes float literals *)

Lemma digit_not_sign c : is_digit c = true -> is_sign c = false.
Proof.
  intros H. unfold is_sign.
  destruct (Ascii.eqb_spec c "+"%char) as [->|_]; [discriminate H|].
  destruct (Ascii.eqb_spec c "-"%char) as [->|_]; [discriminate H|].
  reflexivity.
Qed.

Lemma frun_int_digits d rest :
  string_forall is_digit d = true -> frun FInt (d ++ rest) = frun FInt rest.
Proof.
  induction d as [|c d IH]; simpl; [reflexivity|].
  rewrite andb_true_iff. intros [Hc Hd]. now rewrite Hc, IH.
Qed.

Lemma frun_frac_digits d : string_forall is_digit d = true -> frun FFrac d = true.
Proof.
  induction d as [|c d IH]; simpl; [reflexivity|].
  rewrite andb_true_iff. intros [Hc Hd]. now rewrite Hc, IH.
Qed.

Lemma decimal_shape (neg : bool) d1 d2 :
  d1 <> "" ->
  string_forall is_digit d1 = true ->
  string_forall is_digit d2 = true ->
  float_literal ((if neg then "-" else "") ++ d1 ++ "." ++ d2) = true.
Proof.
  intros Hne H1 H2. unfold float_literal. apply orb_true_iff. right.
  destruct d1 as [|c d1]; [congruence|].
  simpl in H1. apply andb_true_iff in H1. destruct H1 as [Hc H1].
  assert (Htail : frun FInt (d1 ++ "." ++ d2) = true).
  { rewrite frun_int_digits by exact H1. simpl. now apply frun_frac_digits. }
  destruct neg; cbn [append frun].
  - change (fstep FStart "-"%char) with (Some FSign).
    cbn [fstep]. now rewrite Hc.
  - cbn [fstep]. now rewrite (digit_not_sign _ Hc), Hc.
Qed.

Lemma dec_digits n : string_forall is_digit (dec n) = true.
Proof. apply uint_digits_nz. Qed.

Lemma dec_nonempty n : dec n <> "".
Proof.
  unfold dec. destruct n as [|p]; [discriminate|].
  pose proof (DecimalPos.Unsigned.to_uint_nonnil p) as Hp.
  change (N.to_uint (N.pos p)) with (Pos.to_uint p).
  destruct (Pos.to_uint p); [congruence| | | | | | | | | |]; discriminate.
Qed.

Lemma zeros_digits n : string_forall is_digit (zeros n) = true.
Proof. induction n; simpl; auto. Qed.

Lemma exact_repr_literal s m e : float_literal (exact_repr s m e) = true.
Proof.
  unfold exact_repr. destruct e as [|p|p].
  - apply decimal_shape; [apply dec_nonempty|apply dec_digits|reflexivity].
  - apply decimal_shape; [apply dec_nonempty|apply dec_digits|reflexivity].
  - cbv zeta. apply decimal_shape; [apply dec_nonempty|apply dec_digits|].
    unfold pad_zeros. rewrite string_forall_app, zeros_digits. apply dec_digits.
Qed.

(** * The claims at sample inputs *)

(** Three rows of three columns are three lines. *)
Lemma main_emits_count_lines_witness :
  parse_args argv_rows = inr cfg_rows /\
  0 <= count cfg_rows /\
  Z.of_nat (List.length (splitlines (stdout (snd
      (main exact_repr argv_rows (process_start u_demo z_demo)))))) = count cfg_rows.
Proof.
  assert (Hcount : 0 <= count cfg_rows) by (simpl; lia).
  split; [reflexivity|]. split; [exact Hcount|].
  pose proof (main_emits_count_lines exact_repr exact_repr_literal
                argv_rows cfg_rows u_demo z_demo eq_refl Hcount) as H.
  cbv zeta in H. destruct H as (_ & _ & Hlen & _). exact Hlen.
Defined.

Lemma csv_rows_have_M_fields_witness :
  parse_args argv_rows = inr cfg_rows /\
  csv_col cfg_rows = Some 1 /\
  csv_col_max cfg_rows = 3 /\
  0 <= 1 < 3 /\
  List.length (splitlines (stdout (snd
      (main exact_repr argv_rows (process_start u_demo z_demo)))))
  = Z.to_nat (count cfg_rows).
Proof.
  split; [reflexivity|]. split; [reflexivity|]. split; [reflexivity|].
  assert (Hk : 0 <= 1 < 3) by lia.
  split; [exact Hk|].
  pose proof (csv_rows_have_M_fields exact_repr exact_repr_literal
                argv_rows cfg_rows u_demo z_demo 1 3 eq_refl eq_refl eq_refl Hk) as H.
  cbv zeta in H. destruct H as (Hlen & _). exact Hlen.
Defined.

Lemma unsupported_distr_rejected_witness :
  opt_distr argv_uniform = Some "uniform" /\
  "uniform" <> "gauss" /\
  main exact_repr argv_uniform (process_start u_demo z_demo)
  = (SystemExit 2, process_start u_demo z_demo).
Proof.
  assert (Hd : "uniform" <> "gauss") by discriminate.
  split; [reflexivity|]. split; [exact Hd|].
  destruct (unsupported_distr_rejected exact_repr argv_uniform "uniform"
              (process_start u_demo z_demo) eq_refl Hd) as (_ & Hmain & _).
  exact Hmain.
Defined.

Lemma filler_plan_fixed_witness :
  parse_args argv_rows = inr cfg_rows /\
  csv_col cfg_rows = Some 1 /\
  stdout (snd (build_other_ctors 1 (csv_col_max cfg_rows)
                 (process_start u_demo z_demo))) = "" /\
  List.length (fst (build_other_ctors 1 (csv_col_max cfg_rows)
                      (process_start u_demo z_demo)))
  = Z.to_nat (csv_col_max cfg_rows).
Proof.
  split; [reflexivity|]. split; [reflexivity|].
  pose proof (filler_plan_fixed exact_repr exact_repr_literal
                argv_rows cfg_rows u_demo z_demo 1 eq_refl eq_refl) as H.
  cbv zeta in H. destruct H as (_ & Hout & Hlen & _).
  split; [exact Hout|exact Hlen].
Defined.

Lemma out_of_range_target_all_filler_witness :
  parse_args argv_off_row = inr cfg_off_row /\
  csv_col cfg_off_row = Some 7 /\
  csv_col_max cfg_off_row = 3 /\
  1 <= 3 /\
  (7 < 0 \/ 3 <= 7) /\
  List.length (splitlines (stdout (snd
      (main exact_repr argv_off_row (process_start u_demo z_demo)))))
  = Z.to_nat (count cfg_off_row).
Proof.
  split; [reflexivity|]. split; [reflexivity|]. split; [reflexivity|].
  assert (HM : 1 <= 3) by lia.
  assert (Hk : 7 < 0 \/ 3 <= 7) by (right; lia).
  split; [exact HM|]. split; [exact Hk|].
  pose proof (out_of_range_target_all_filler exact_repr exact_repr_literal
                argv_off_row cfg_off_row u_demo z_demo 7 3
                eq_refl eq_refl eq_refl HM Hk) as H.
  cbv zeta in H. destruct H as (_ & Hlen & _). exact Hlen.
Defined.

Lemma zero_stdev_prints_zeros_witness :
  (forall i, is_finite (z_demo i) = true) /\
  splitlines (stdout (snd
      (main exact_repr argv_zero_stdev (process_start u_demo z_demo))))
  = ["0.0"; "0.0"; "0.0"; "0.0"; "0.0"].
Proof.
  assert (Hz : forall i, is_finite (z_demo i) = true) by (intros i; reflexivity).
  split; [exact Hz|].
  pose proof (zero_stdev_prints_zeros exact_repr u_demo z_demo Hz) as H.
  cbv zeta in H. destruct H as (_ & _ & Hlines & _). exact Hlines.
Defined.

Lemma negative_count_emits_nothing_witness :
  opt_count argv_negative = Some (-4) /\
  -4 < 0 /\
  (opt_distr argv_negative = None \/ opt_distr argv_negative = Some "gauss") /\
  exists cfg,
    parse_args argv_negative = inr cfg /\
    count cfg = -4 /\
    fst (main exact_repr argv_negative (process_start u_demo z_demo)) = Returned.
Proof.
  split; [reflexivity|]. split; [lia|]. split; [left; reflexivity|].
  destruct (negative_count_emits_nothing exact_repr argv_negative (-4)
              (process_start u_demo z_demo) eq_refl ltac:(lia) (or_introl eq_refl))
    as (cfg & Hp & Hc & Hr & _).
  exists cfg. split; [exact Hp|]. split; [exact Hc|exact Hr].
Defined.

(** Two counter columns around the sample: the plan is
    [[_seq_int, None, _seq_int]] and the rows count 0,1 / 2,3 / 4,5. *)
Lemma counter_shared_by_columns_witness :
  let w0 := process_start u_counters z_demo in
  let plan := fst (build_other_ctors 1 (csv_col_max cfg_counters) w0) in
  let out := splitlines (stdout (snd (main exact_repr argv_counters w0))) in
  parse_args argv_counters = inr cfg_counters /\
  csv_col cfg_counters = Some 1 /\
  nth_error plan 0 = Some (Some Seq_int) /\
  nth_error plan 2 = Some (Some Seq_int) /\
  out = ["0,0.0,1"; "2,0.0,3"; "4,0.0,5"] /\
  counter_value plan 1 0 < counter_value plan 1 2 /\
  str_int (counter_value plan 1 0) <> str_int (counter_value plan 1 2) /\
  nth_error (split comma "2,0.0,3") 0 = Some (str_int (counter_value plan 1 0)) /\
  nth_error (split comma "2,0.0,3") 2 = Some (str_int (counter_value plan 1 2)).
Proof.
  cbv zeta.
  assert (H0 : nth_error (fst (build_other_ctors 1 (csv_col_max cfg_counters)
                                 (process_start u_counters z_demo))) 0
               = Some (Some Seq_int)) by (vm_compute; reflexivity).
  assert (H2 : nth_error (fst (build_other_ctors 1 (csv_col_max cfg_counters)
                                 (process_start u_counters z_demo))) 2
               = Some (Some Seq_int)) by (vm_compute; reflexivity).
  assert (Hout : splitlines (stdout (snd (main exact_repr argv_counters
                                            (process_start u_counters z_demo))))
                 = ["0,0.0,1"; "2,0.0,3"; "4,0.0,5"]) by (vm_compute; reflexivity).
  pose proof (counter_shared_by_columns exact_repr exact_repr_literal
                argv_counters cfg_counters u_counters z_demo 1 eq_refl eq_refl) as H.
  cbv zeta in H. destruct H as (Hmono & _ & _ & Hsplit & _).
  assert (Hline : nth_error (splitlines (stdout (snd (main exact_repr argv_counters
                                 (process_start u_counters z_demo))))) 1
                  = Some "2,0.0,3") by (rewrite Hout; reflexivity).
  split; [reflexivity|]. split; [reflexivity|].
  split; [exact H0|]. split; [exact H2|]. split; [exact Hout|].
  split; [exact (proj1 (Hmono 1%nat 0%nat 2%nat (Nat.lt_0_succ 1) H0 H2))|].
  split; [exact (proj2 (Hmono 1%nat 0%nat 2%nat (Nat.lt_0_succ 1) H0 H2))|].
  split; [exact (Hsplit 1%nat "2,0.0,3" 0%nat Hline H0)|].
  exact (Hsplit 1%nat "2,0.0,3" 2%nat Hline H2).
Defined.

(** * Where the code departs from the wording *)

(** C4 as worded has the counter initialised to 0; the module body sets
    it to -1, and the first call returns 0. *)
Lemma seq_int_counter_not_initialised_to_zero :
  ~ (seq_int_N (process_start u_demo z_demo) = 0) /\
  seq_int_N (process_start u_demo z_demo) = -1 /\
  fst (_seq_int (process_start u_demo z_demo)) = 0.
Proof. split; [discriminate|]. split; reflexivity. Qed.

(** C7 as worded promises lines of [csv-col-max] fields whenever the
    target is out of range; with [--csv-col 0 --csv-col-max 0] the one
    line written is empty and splits into one field, not zero. *)
Lemma no_columns_line_has_one_field :
  let cfg := mkNamespace 1 "gauss" pos_zero float_one (Some 0) 0 in
  let out := splitlines (stdout (snd
      (main exact_repr argv_no_columns (process_start u_demo z_demo)))) in
  parse_args argv_no_columns = inr cfg /\
  ~ (0 <= 0 < csv_col_max cfg) /\
  out = [""] /\
  ~ (forall line, In line out ->
       Z.of_nat (List.length (split comma line)) = csv_col_max cfg).
Proof.
  cbv zeta. split; [reflexivity|]. split; [simpl; lia|].
  split; [reflexivity|].
  intros H. specialize (H "" (or_introl eq_refl)). discriminate H.
Qed.

(** * The further properties at sample inputs *)

Lemma plain_lines_are_samples_witness :
  parse_args argv_plain = inr cfg_plain /\
  csv_col cfg_plain = None /\
  uniform_pos (snd (main exact_repr argv_plain (process_start u_demo z_demo))) = 0%nat.
Proof.
  split; [reflexivity|]. split; [reflexivity|].
  pose proof (plain_lines_are_samples exact_repr exact_repr_literal
                argv_plain cfg_plain u_demo z_demo eq_refl eq_refl) as H.
  cbv zeta in H. destruct H as (_ & _ & Hpos & _). exact Hpos.
Defined.

Lemma main_frames_state_witness :
  parse_args argv_rows = inr cfg_rows /\
  normal (snd (main exact_repr argv_rows (process_start u_demo z_demo)))
  = normal (process_start u_demo z_demo).
Proof.
  split; [reflexivity|].
  pose proof (main_frames_state exact_repr argv_rows cfg_rows
                (process_start u_demo z_demo) eq_refl) as H.
  cbv zeta in H. destruct H as (_ & _ & Hz & _). exact Hz.
Defined.

(** A second call of [main] in the process: the first left
    [_seq_int.N = 5] and three rows; the second goes on from 6. *)
Lemma counter_fields_from_any_state_witness :
  let w1 := snd (main exact_repr argv_counters (process_start u_counters z_demo)) in
  let plan := fst (build_other_ctors 1 (csv_col_max cfg_counters) w1) in
  parse_args argv_counters = inr cfg_counters /\
  csv_col cfg_counters = Some 1 /\
  seq_int_N w1 = 5 /\
  stdout w1 = unlines ["0,0.0,1"; "2,0.0,3"; "4,0.0,5"] /\
  nth_error plan 0 = Some (Some Seq_int) /\
  str_int (seq_int_N w1 + 1 + counter_value plan 0 0) = "6" /\
  stdout (snd (main exact_repr argv_counters w1))
  = stdout w1 ++ unlines ["6,0.0,7"; "8,0.0,9"; "10,0.0,11"] /\
  exists rows,
    List.length rows = Z.to_nat (count cfg_counters) /\
    stdout (snd (main exact_repr argv_counters w1))
    = stdout w1 ++ unlines (map (join ",") rows) /\
    forall line,
      nth_error (splitlines (unlines (map (join ",") rows))) 0 = Some line ->
      nth_error (split comma line) 0
      = Some (str_int (seq_int_N w1 + 1 + counter_value plan 0 0)).
Proof.
  cbv zeta.
  assert (H0 : nth_error
                 (fst (build_other_ctors 1 (csv_col_max cfg_counters)
                         (snd (main exact_repr argv_counters
                                 (process_start u_counters z_demo))))) 0
               = Some (Some Seq_int)) by (vm_compute; reflexivity).
  split; [reflexivity|]. split; [reflexivity|].
  split; [vm_compute; reflexivity|]. split; [vm_compute; reflexivity|].
  split; [exact H0|]. split; [vm_compute; reflexivity|].
  split; [vm_compute; reflexivity|].
  pose proof (counter_fields_from_any_state exact_repr exact_repr_literal
                argv_counters cfg_counters
                (snd (main exact_repr argv_counters (process_start u_counters z_demo)))
                1 eq_refl eq_refl) as H.
  cbv zeta in H. destruct H as (rows & Hlen & Hout & _ & _ & Hsplit).
  exists rows. split; [exact Hlen|]. split; [exact Hout|].
  intros line Hline. exact (Hsplit 0%nat line 0%nat Hline H0).
Defined.

Lemma nonpositive_columns_empty_lines_witness :
  parse_args argv_no_columns = inr cfg_no_columns /\
  csv_col cfg_no_columns = Some 0 /\
  csv_col_max cfg_no_columns <= 0 /\
  fst (build_other_ctors 0 (csv_col_max cfg_no_columns)
         (process_start u_demo z_demo)) = [].
Proof.
  assert (HM : csv_col_max cfg_no_columns <= 0) by (simpl; lia).
  split; [reflexivity|]. split; [reflexivity|]. split; [exact HM|].
  destruct (nonpositive_columns_empty_lines exact_repr exact_repr_literal
              argv_no_columns cfg_no_columns u_demo z_demo 0 eq_refl eq_refl HM)
    as [Hplan _].
  exact Hplan.
Defined.

Lemma single_column_csv_is_plain_witness :
  parse_args argv_plain = inr cfg_plain /\
  parse_args argv_single = inr cfg_single /\
  main exact_repr argv_single (process_start u_demo z_demo)
  = main exact_repr argv_plain (process_start u_demo z_demo).
Proof.
  split; [reflexivity|]. split; [reflexivity|].
  exact (single_column_csv_is_plain exact_repr argv_plain argv_single
           cfg_plain cfg_single (process_start u_demo z_demo)
           eq_refl eq_refl eq_refl eq_refl eq_refl eq_refl eq_refl eq_refl).
Defined.

Lemma larger_count_extends_output_witness :
  parse_args argv_plain = inr cfg_plain /\
  parse_args argv_plain_more = inr cfg_plain_more /\
  count cfg_plain <= count cfg_plain_more /\
  exists more,
    stdout (snd (main exact_repr argv_plain_more (process_start u_demo z_demo)))
    = stdout (snd (main exact_repr argv_plain (process_start u_demo z_demo))) ++ more.
Proof.
  assert (Hc : count cfg_plain <= count cfg_plain_more) by (simpl; lia).
  split; [reflexivity|]. split; [reflexivity|]. split; [exact Hc|].
  destruct (larger_count_extends_output exact_repr argv_plain argv_plain_more
              cfg_plain cfg_plain_more (process_start u_demo z_demo)
              eq_refl eq_refl Hc eq_refl eq_refl eq_refl eq_refl)
    as [_ Hmore].
  exact Hmore.
Defined.

Lemma random_str_covers_range_witness :
  string_forall is_lower "abc" = true /\
  (1 <= String.length "abc" <= 8)%nat /\
  fst (_random_str (process_start (tape_for "abc") z_demo)) = "abc".
Proof.
  assert (Hlen : (1 <= String.length "abc" <= 8)%nat) by (simpl; lia).
  split; [reflexivity|]. split; [exact Hlen|].
  exact (random_str_covers_range "abc" z_demo eq_refl Hlen).
Defined.
